(** * Retry service: a shallow embedding of [Retry.service.ts] and
      [Logger.service.ts], and the properties of the retry engine.

    The embedding follows the TypeScript sources function by function.
    JavaScript values are a small tagged union, numbers are [Z], an
    [async] function is a computation in a state-and-exception monad over
    the environment the injected collaborators (operation, timer, logger,
    hooks) act on. *)

From Stdlib Require Import ZArith List String Bool Lia DecimalString.
From Stdlib Require Import FunctionalExtensionality.
Import ListNotations.
Local Open Scope string_scope.
Local Open Scope Z_scope.
Local Open Scope list_scope.

Set Implicit Arguments.

(* ================================================================== *)
(** ** JavaScript values *)
(* ================================================================== *)

(** An [Error] instance: its [name], its [message] and, for the retry
    errors, the optional [cause]. *)
#[warnings="-register-all"]
Inductive ErrorObj : Type :=
| MkError (name : string) (message : string) (cause : option ErrorObj).

Definition err_name (e : ErrorObj) : string :=
  match e with MkError n _ _ => n end.
Definition err_message (e : ErrorObj) : string :=
  match e with MkError _ m _ => m end.
Definition err_cause (e : ErrorObj) : option ErrorObj :=
  match e with MkError _ _ c => c end.

(** What an operation can return or throw.  A non-[Error] object is an
    opaque reference; what the runtime can tell about it is asked of the
    [Host] below. *)
Inductive JsValue : Type :=
| JsUndefined
| JsNull
| JsBool (b : bool)
| JsNumber (n : Z)
| JsString (s : string)
| JsObject (ref : nat)
| JsError (e : ErrorObj).

(** [error instanceof Error] *)
Definition instanceofError (v : JsValue) : bool :=
  match v with JsError _ => true | _ => false end.

(** [value == null] *)
Definition looselyNull (v : JsValue) : bool :=
  match v with JsUndefined | JsNull => true | _ => false end.

(** [typeof value === "object"] *)
Definition typeofObject (v : JsValue) : bool :=
  match v with JsNull | JsObject _ | JsError _ => true | _ => false end.

(** The three ways [JSON.stringify(value)] can end: a text, [undefined],
    or an exception (a circular structure, a throwing [toJSON]). *)
Inductive JsonOutcome : Type :=
| JsonText (json : string)
| JsonUndefined
| JsonThrows (thrown : JsValue).

(** The built-ins of the JavaScript runtime the service calls. *)
Record Host : Type := {
  JSON_stringify : JsValue -> JsonOutcome;
  (** [value.constructor?.name], [None] when there is no constructor *)
  constructor_name : JsValue -> option string;
  (** [String(value)] *)
  String_of : JsValue -> string
}.

(** How a template literal prints a number. *)
Definition showZ (z : Z) : string := NilEmpty.string_of_int (Z.to_int z).
Definition showNat (n : nat) : string := showZ (Z.of_nat n).

(** A completed computation: a value, or a thrown value. *)
Inductive Completion (A : Type) : Type :=
| Normal (a : A)
| Throw (v : JsValue).
Arguments Normal {A} a.
Arguments Throw {A} v.

(* ================================================================== *)
(** ** The retry errors *)
(* ================================================================== *)

Definition RetryTimeoutError (message : string) (cause : option ErrorObj) :=
  MkError "RetryTimeoutError" message cause.
Definition RetryAttemptsExceededError (message : string)
  (cause : option ErrorObj) :=
  MkError "RetryAttemptsExceededError" message cause.
Definition RetryConfigurationError (message : string) :=
  MkError "RetryConfigurationError" message None.
Definition RetryReportValidationError (message : string) :=
  MkError "RetryReportValidationError" message None.

(* ================================================================== *)
(** ** Reports and the report builder *)
(* ================================================================== *)

Inductive ReasonType : Type := ReasonError | ReasonResult.

Record RetryReason : Type := {
  reason_type : ReasonType;
  reason_value : JsValue
}.

Record RetryReport : Type := {
  startTime : Z;
  totalTime : Z;
  attempts : Z;
  errors : list ErrorObj;
  delays : list Z;
  retryingOperationSucceeded : bool;
  timedOut : option bool;
  retryReasons : option (list RetryReason)
}.

(** [errors[errors.length - 1]], [None] for the empty array. *)
Fixpoint lastOf {A : Type} (l : list A) : option A :=
  match l with
  | [] => None
  | [x] => Some x
  | _ :: l' => lastOf l'
  end.

Module RetryReportBuilder.

(** The builder holds one private report. *)
Record t : Type := { report : RetryReport }.

Definition new (startTime : Z) : t :=
  {| report := {| startTime := startTime;
                  totalTime := 0;
                  attempts := 0;
                  errors := [];
                  delays := [];
                  retryingOperationSucceeded := false;
                  timedOut := None;
                  retryReasons := None |} |}.

Definition withAttempt (b : t) : t :=
  let r := report b in
  {| report := {| startTime := startTime r;
                  totalTime := totalTime r;
                  attempts := attempts r + 1;
                  errors := errors r;
                  delays := delays r;
                  retryingOperationSucceeded := retryingOperationSucceeded r;
                  timedOut := timedOut r;
                  retryReasons := retryReasons r |} |}.

(** [error instanceof Error ? error : new Error(String(error))] *)
Definition toErrorObj (h : Host) (error : JsValue) : ErrorObj :=
  match error with
  | JsError e => e
  | _ => MkError "Error" (String_of h error) None
  end.

Definition withError (h : Host) (error : JsValue) (b : t) : t :=
  let r := report b in
  let errorObj := toErrorObj h error in
  {| report := {| startTime := startTime r;
                  totalTime := totalTime r;
                  attempts := attempts r;
                  errors := errors r ++ [errorObj];
                  delays := delays r;
                  retryingOperationSucceeded := retryingOperationSucceeded r;
                  timedOut := timedOut r;
                  retryReasons := retryReasons r |} |}.

Definition withDelay (delay : Z) (b : t) : t :=
  let r := report b in
  {| report := {| startTime := startTime r;
                  totalTime := totalTime r;
                  attempts := attempts r;
                  errors := errors r;
                  delays := delays r ++ [delay];
                  retryingOperationSucceeded := retryingOperationSucceeded r;
                  timedOut := timedOut r;
                  retryReasons := retryReasons r |} |}.

Definition sanitizeForLogging (h : Host) (value : JsValue)
  (shouldSanitize : bool) (threshold : Z) : JsValue :=
  if negb shouldSanitize || looselyNull value || negb (typeofObject value)
  then value
  else
    match JSON_stringify h value with
    | JsonText json =>
        if (Z.of_nat (String.length json) <=? threshold)%Z then value
        else
          let objType :=
            match constructor_name h value with
            | Some n => if String.eqb n "" then "Object" else n
            | None => "Object"
            end in
          JsString (String.concat ""
            ["[Large "; objType; ": "; showNat (String.length json);
             " chars]"])
    | JsonUndefined => JsString "[Unstringifiable Object]"
    | JsonThrows _ => JsString "[Unstringifiable Object]"
    end.

Definition withRetryReason (h : Host) (type : ReasonType) (value : JsValue)
  (sanitize : bool) (threshold : Z) (b : t) : t :=
  let r := report b in
  let reasons := match retryReasons r with Some l => l | None => [] end in
  let sanitizedValue := sanitizeForLogging h value sanitize threshold in
  {| report := {| startTime := startTime r;
                  totalTime := totalTime r;
                  attempts := attempts r;
                  errors := errors r;
                  delays := delays r;
                  retryingOperationSucceeded := retryingOperationSucceeded r;
                  timedOut := timedOut r;
                  retryReasons :=
                    Some (reasons ++ [{| reason_type := type;
                                         reason_value := sanitizedValue |}])
               |} |}.

Definition withSuccess (currentTime : Z) (b : t) : t :=
  let r := report b in
  {| report := {| startTime := startTime r;
                  totalTime := currentTime - startTime r;
                  attempts := attempts r;
                  errors := errors r;
                  delays := delays r;
                  retryingOperationSucceeded := true;
                  timedOut := timedOut r;
                  retryReasons := retryReasons r |} |}.

Definition withTimeout (currentTime : Z) (b : t) : t :=
  let r := report b in
  {| report := {| startTime := startTime r;
                  totalTime := currentTime - startTime r;
                  attempts := attempts r;
                  errors := errors r;
                  delays := delays r;
                  retryingOperationSucceeded := retryingOperationSucceeded r;
                  timedOut := Some true;
                  retryReasons := retryReasons r |} |}.

Definition withFailure (currentTime : Z) (b : t) : t :=
  let r := report b in
  {| report := {| startTime := startTime r;
                  totalTime := currentTime - startTime r;
                  attempts := attempts r;
                  errors := errors r;
                  delays := delays r;
                  retryingOperationSucceeded := false;
                  timedOut := timedOut r;
                  retryReasons := retryReasons r |} |}.

Definition build (b : t) : Completion RetryReport :=
  if (totalTime (report b) <? 0)%Z then
    Throw (JsError (RetryReportValidationError
                      "Invalid report: totalTime cannot be negative"))
  else if (attempts (report b) <? 0)%Z then
    Throw (JsError (RetryReportValidationError
                      "Invalid report: attempts cannot be negative"))
  else Normal (report b).

End RetryReportBuilder.

(* ================================================================== *)
(** ** Computations *)
(* ================================================================== *)

(** What the collaborators were asked to do during a call, in order: the
    outcome of every invocation of the operation, every duration handed
    to [timer.delay], every report [build] returned, and every report
    handed to [onComplete].  The journal is ghost state: no function of
    the service reads it. *)
Record Journal : Type := {
  calls : list (Completion JsValue);
  waits : list Z;
  finals : list RetryReport;
  completions : list RetryReport
}.

Definition emptyJournal : Journal :=
  {| calls := []; waits := []; finals := []; completions := [] |}.

Definition addCall (c : Completion JsValue) (j : Journal) : Journal :=
  {| calls := calls j ++ [c]; waits := waits j; finals := finals j;
     completions := completions j |}.

Definition addWait (ms : Z) (j : Journal) : Journal :=
  {| calls := calls j; waits := waits j ++ [ms]; finals := finals j;
     completions := completions j |}.

Definition addFinal (r : RetryReport) (j : Journal) : Journal :=
  {| calls := calls j; waits := waits j; finals := finals j ++ [r];
     completions := completions j |}.

Definition addCompletion (r : RetryReport) (j : Journal) : Journal :=
  {| calls := calls j; waits := waits j; finals := finals j;
     completions := completions j ++ [r] |}.

Section Computations.

(** The state of the collaborators injected into the service. *)
Context {E : Type}.

Record State : Type := { env : E; journal : Journal }.

(** An [async] function body: it runs on a state and ends with a value
    or an exception. *)
Definition M (A : Type) : Type := State -> Completion A * State.

Definition ret {A : Type} (a : A) : M A := fun st => (Normal a, st).

Definition throw {A : Type} (v : JsValue) : M A := fun st => (Throw v, st).

Definition bind {A B : Type} (m : M A) (k : A -> M B) : M B :=
  fun st =>
    match m st with
    | (Normal a, st') => k a st'
    | (Throw v, st') => (Throw v, st')
    end.

(** [try { body } catch (error) { handler }] *)
Definition tryCatch {A : Type} (body : M A) (handler : JsValue -> M A)
  : M A :=
  fun st =>
    match body st with
    | (Normal a, st') => (Normal a, st')
    | (Throw v, st') => handler v st'
    end.

(** A synchronous result: returned, or thrown. *)
Definition complete {A : Type} (c : Completion A) : M A :=
  fun st => (c, st).

(** A call into a collaborator, which acts on the environment only. *)
Definition call {A : Type} (f : E -> Completion A * E) : M A :=
  fun st =>
    let (c, e') := f (env st) in
    (c, {| env := e'; journal := journal st |}).

(** [await fn()], journalled. *)
Definition invoke (fn : E -> Completion JsValue * E) : M JsValue :=
  fun st =>
    let (c, e') := fn (env st) in
    (c, {| env := e'; journal := addCall c (journal st) |}).

(** [builder.build()], the report journalled when it is returned. *)
Definition finalize (c : Completion RetryReport) : M RetryReport :=
  fun st =>
    match c with
    | Normal r =>
        (Normal r, {| env := env st; journal := addFinal r (journal st) |})
    | Throw v => (Throw v, st)
    end.

End Computations.

Arguments State E : clear implicits.
Arguments M E A : clear implicits.

Declare Scope js_scope.
Delimit Scope js_scope with js.
Notation "x <- m ;; k" := (bind m (fun x => k))
  (at level 100, m at next level, right associativity) : js_scope.
Notation "m ;; k" := (bind m (fun _ => k))
  (at level 100, right associativity) : js_scope.
Local Open Scope js_scope.

(* ================================================================== *)
(** ** Logger.service.ts *)
(* ================================================================== *)

Inductive LogLevel : Type :=
| LevelTrace | LevelDebug | LevelInfo | LevelWarn | LevelError.

(** [keyof LogHandler] *)
Inductive LogMethod : Type :=
| MethodTrace | MethodDebug | MethodLog | MethodInfo | MethodWarn
| MethodError.

Module LogHandler.

(** A subset of the console: each method takes the message and acts on
    the environment; like any JavaScript function it may throw. *)
Record t (E : Type) : Type := {
  trace : string -> E -> Completion unit * E;
  debug : string -> E -> Completion unit * E;
  log : string -> E -> Completion unit * E;
  info : string -> E -> Completion unit * E;
  warn : string -> E -> Completion unit * E;
  error : string -> E -> Completion unit * E
}.

(** [handler[method]] *)
Definition method {E : Type} (handler : t E) (m : LogMethod)
  : string -> E -> Completion unit * E :=
  match m with
  | MethodTrace => trace handler
  | MethodDebug => debug handler
  | MethodLog => log handler
  | MethodInfo => info handler
  | MethodWarn => warn handler
  | MethodError => error handler
  end.

End LogHandler.

Definition dquote : string := String (Ascii.ascii_of_nat 34) EmptyString.

Module Logger.

Definition LOG_LEVEL_PRIORITY (level : LogLevel) : Z :=
  match level with
  | LevelTrace => 1
  | LevelDebug => 2
  | LevelInfo => 3
  | LevelWarn => 4
  | LevelError => 5
  end.

Definition DEFAULT_LOG_LEVEL : LogLevel := LevelInfo.

Definition levelName (level : LogLevel) : string :=
  match level with
  | LevelTrace => "trace"
  | LevelDebug => "debug"
  | LevelInfo => "info"
  | LevelWarn => "warn"
  | LevelError => "error"
  end.

(** The level a string names, when it is one of the keys of
    [LOG_LEVEL_PRIORITY]. *)
Definition isValidLogLevel (value : string) : option LogLevel :=
  if String.eqb value "trace" then Some LevelTrace
  else if String.eqb value "debug" then Some LevelDebug
  else if String.eqb value "info" then Some LevelInfo
  else if String.eqb value "warn" then Some LevelWarn
  else if String.eqb value "error" then Some LevelError
  else None.

Record t (E : Type) : Type := {
  currentLevel : LogLevel;
  logHandler : LogHandler.t E
}.

Section Methods.

Context {E : Type}.

(** The constructor, reached through [Logger.create]: an absent level
    is the default one, an invalid one is reported to the handler. *)
Definition create (level : option string) (handler : LogHandler.t E)
  : E -> Completion (t E) * E :=
  fun e =>
    let level := match level with
                 | Some l => l
                 | None => levelName DEFAULT_LOG_LEVEL
                 end in
    match isValidLogLevel level with
    | Some l => (Normal {| currentLevel := l; logHandler := handler |}, e)
    | None =>
        match LogHandler.warn handler
                (String.concat ""
                   ["Invalid log level "; dquote; level; dquote;
                    ", defaulting to "; dquote;
                    levelName DEFAULT_LOG_LEVEL; dquote; "."]) e with
        | (Normal _, e') =>
            (Normal {| currentLevel := DEFAULT_LOG_LEVEL;
                       logHandler := handler |}, e')
        | (Throw v, e') => (Throw v, e')
        end
    end.

Variable this : t E.

Definition isLoggable (targetLevel : LogLevel) : bool :=
  (LOG_LEVEL_PRIORITY targetLevel >=?
     LOG_LEVEL_PRIORITY (currentLevel this))%Z.

(** The handler's method runs inside [try]; whatever it throws is
    dropped. *)
Definition tryLog (method : LogMethod) (message : string)
  : E -> Completion unit * E :=
  fun e =>
    match LogHandler.method (logHandler this) method message e with
    | (Normal _, e') => (Normal tt, e')
    | (Throw _, e') => (Normal tt, e')
    end.

Definition trace (message : string) : E -> Completion unit * E :=
  fun e => if isLoggable LevelTrace then tryLog MethodTrace message e
           else (Normal tt, e).

Definition debug (message : string) : E -> Completion unit * E :=
  fun e => if isLoggable LevelDebug then tryLog MethodDebug message e
           else (Normal tt, e).

Definition log (message : string) : E -> Completion unit * E :=
  fun e => if isLoggable LevelInfo then tryLog MethodLog message e
           else (Normal tt, e).

Definition info (message : string) : E -> Completion unit * E :=
  fun e => if isLoggable LevelInfo then tryLog MethodInfo message e
           else (Normal tt, e).

Definition warn (message : string) : E -> Completion unit * E :=
  fun e => if isLoggable LevelWarn then tryLog MethodWarn message e
           else (Normal tt, e).

Definition error (message : string) : E -> Completion unit * E :=
  fun e => if isLoggable LevelError then tryLog MethodError message e
           else (Normal tt, e).

(** [Logger implements LogHandler] *)
Definition asLogHandler : LogHandler.t E :=
  {| LogHandler.trace := trace;
     LogHandler.debug := debug;
     LogHandler.log := log;
     LogHandler.info := info;
     LogHandler.warn := warn;
     LogHandler.error := error |}.

End Methods.

End Logger.

(* ================================================================== *)
(** ** Retry.service.ts *)
(* ================================================================== *)

(** The timer: [delay] resolves after the wait, [now] returns the
    reading; both may change the environment. *)
Record Timer (E : Type) : Type := {
  delay : Z -> E -> E;
  now : E -> Z * E
}.

Module RetryOptions.

(** An optional field is an [option]; [None] is [undefined].  The
    predicates and the hook return normally. *)
Record t (E : Type) : Type := {
  retries : Z;
  delay : option Z;
  exponentialBackoff : option bool;
  retryOnError : option (JsValue -> bool);
  retryOnResult : option (JsValue -> bool);
  timeout : option Z;
  onComplete : option (RetryReport -> E -> E);
  sanitizeRetryReasons : option bool;
  sanitizationThreshold : option Z
}.

End RetryOptions.

Module RetryService.

Import RetryReportBuilder.

Record t (E : Type) : Type := {
  logger : LogHandler.t E;
  timer : Timer E
}.

Section Methods.

Context {E : Type}.
Variable host : Host.
Variable this : t E.

(** [this.logger.debug(message)] *)
Definition logger_debug (message : string) : M E unit :=
  call (LogHandler.debug (logger this) message).

(** [this.timer.now()] *)
Definition timer_now : M E Z :=
  call (fun e => let (n, e') := now (timer this) e in (Normal n, e')).

(** [await this.timer.delay(ms)], journalled. *)
Definition timer_delay (ms : Z) : M E unit :=
  fun st =>
    (Normal tt,
     {| env := delay (timer this) ms (env st);
        journal := addWait ms (journal st) |}).

Variable fn : E -> Completion JsValue * E.
Variable options : RetryOptions.t E.

(** [if (options.onComplete) options.onComplete(finalReport)],
    journalled when the hook is there. *)
Definition notifyComplete (finalReport : RetryReport) : M E unit :=
  match RetryOptions.onComplete options with
  | Some hook =>
      fun st =>
        (Normal tt,
         {| env := hook finalReport (env st);
            journal := addCompletion finalReport (journal st) |})
  | None => ret tt
  end.

Definition validateOptions : Completion unit :=
  if RetryOptions.retries options <? 0 then
    Throw (JsError (RetryConfigurationError "Negative retries"))
  else if match RetryOptions.delay options with
          | Some d => d <? 0
          | None => false
          end then
    Throw (JsError (RetryConfigurationError "Delay cannot be negative"))
  else if match RetryOptions.timeout options with
          | Some t => t <=? 0
          | None => false
          end then
    Throw (JsError (RetryConfigurationError
                      "Timeout must be greater than zero"))
  else if match RetryOptions.sanitizationThreshold options with
          | Some t => t <? 0
          | None => false
          end then
    Throw (JsError (RetryConfigurationError
                      "Sanitization threshold cannot be negative"))
  else Normal tt.

(** [Boolean(timeout && this.timer.now() > timeout)]: [null] and [0]
    are falsy, and then the clock is not read. *)
Definition isTimedOut (timeout : option Z) : M E bool :=
  match timeout with
  | None => ret false
  | Some t =>
      if t =? 0 then ret false
      else (n <- timer_now ;; ret (n >? t))
  end.

Definition handleTimeout (reportBuilder : RetryReportBuilder.t)
  : M E JsValue :=
  logger_debug "Retry timeout exceeded" ;;
  currentTime <- timer_now ;;
  finalReport <- finalize (build (withTimeout currentTime reportBuilder)) ;;
  let maybeLastError := lastOf (errors finalReport) in
  notifyComplete finalReport ;;
  throw (JsError (RetryTimeoutError "Retry timeout exceeded"
                    maybeLastError)).

Definition calculateDelay (retriesLeft : nat) (baseDelay : Z) : Z :=
  match RetryOptions.exponentialBackoff options with
  | Some true =>
      baseDelay * (RetryOptions.retries options - Z.of_nat retriesLeft + 1)
  | _ => baseDelay
  end.

(** [options.sanitizeRetryReasons !== false] *)
Definition sanitizeEnabled : bool :=
  match RetryOptions.sanitizeRetryReasons options with
  | Some false => false
  | _ => true
  end.

(** The type of [this.attempt(fn, options, retriesLeft - 1, ...)] with
    its first three arguments fixed. *)
Definition Attempt : Type :=
  Z -> option Z -> Z -> RetryReportBuilder.t -> M E JsValue.

Definition handleRetryableResult (attemptNext : Attempt)
  (result : JsValue) (retriesLeft : nat) (delay : Z)
  (timeout : option Z) (sanitizationThreshold : Z)
  (reportBuilder : RetryReportBuilder.t) : M E JsValue :=
  let currentDelay := calculateDelay retriesLeft delay in
  logger_debug (String.concat ""
    ["Retrying in "; showZ currentDelay; "ms... Retries left: ";
     showZ (Z.of_nat retriesLeft - 1)]) ;;
  let retryReportBuilder :=
    withDelay currentDelay
      (withRetryReason host ReasonResult result sanitizeEnabled
         sanitizationThreshold reportBuilder) in
  (if currentDelay =? 0 then ret tt else timer_delay currentDelay) ;;
  attemptNext delay timeout sanitizationThreshold retryReportBuilder.

Definition handleSuccess (result : JsValue)
  (reportBuilder : RetryReportBuilder.t) : M E JsValue :=
  currentTime <- timer_now ;;
  finalReport <- finalize (build (withSuccess currentTime reportBuilder)) ;;
  notifyComplete finalReport ;;
  ret result.

Definition handleNonRetryableError (error : JsValue)
  (reportBuilder : RetryReportBuilder.t) (retriesLeft : nat)
  (shouldRetry : bool) : M E JsValue :=
  logger_debug
    "No retries left or error is not retryable. Throwing error" ;;
  currentTime <- timer_now ;;
  finalReport <- finalize (build (withFailure currentTime reportBuilder)) ;;
  notifyComplete finalReport ;;
  match error with
  | JsError e =>
      if (Z.of_nat retriesLeft <=? 0) && shouldRetry then
        throw (JsError (RetryAttemptsExceededError
          (String.concat ""
             ["Maximum retry attempts (";
              showZ (RetryOptions.retries options);
              ") exceeded: "; err_message e])
          (Some e)))
      else throw error
  | _ => throw error
  end.

Definition retryAfterError (attemptNext : Attempt) (error : JsValue)
  (retriesLeft : nat) (delay : Z) (timeout : option Z)
  (sanitizationThreshold : Z) (reportBuilder : RetryReportBuilder.t)
  : M E JsValue :=
  let currentDelay := calculateDelay retriesLeft delay in
  logger_debug (String.concat ""
    ["Retrying in "; showZ currentDelay; "ms... Retries left: ";
     showZ (Z.of_nat retriesLeft - 1)]) ;;
  let retryReportBuilder :=
    withDelay currentDelay
      (withRetryReason host ReasonError error sanitizeEnabled
         sanitizationThreshold reportBuilder) in
  (if currentDelay =? 0 then ret tt else timer_delay currentDelay) ;;
  attemptNext delay timeout sanitizationThreshold retryReportBuilder.

Definition handleError (attemptNext : Attempt) (error : JsValue)
  (retriesLeft : nat) (delay : Z) (timeout : option Z)
  (sanitizationThreshold : Z) (reportBuilder : RetryReportBuilder.t)
  : M E JsValue :=
  logger_debug (String.concat ""
    ["Error encountered: ";
     match error with
     | JsError e => err_message e
     | _ => "Unknown error"
     end;
     ". Retries left: "; showNat retriesLeft]) ;;
  let errorReportBuilder := withError host error reportBuilder in
  let shouldRetry :=
    match RetryOptions.retryOnError options with
    | None => true
    | Some retryOnError => retryOnError error
    end in
  if negb shouldRetry || (Z.of_nat retriesLeft <=? 0) then
    handleNonRetryableError error errorReportBuilder retriesLeft
      shouldRetry
  else
    retryAfterError attemptNext error retriesLeft delay timeout
      sanitizationThreshold errorReportBuilder.

(** [JSON.stringify(result)] inside a template literal. *)
Definition stringifyInTemplate (result : JsValue) : M E string :=
  match JSON_stringify host result with
  | JsonText json => ret json
  | JsonUndefined => ret "undefined"
  | JsonThrows v => throw v
  end.

(** One iteration.  [attemptNext] is the recursive call with
    [retriesLeft - 1]; the [try] block spans the call of the
    operation, the awaited [handleRetryableResult] and
    [handleSuccess]. *)
Definition attemptBody (attemptNext : Attempt) (retriesLeft : nat)
  (delay : Z) (timeout : option Z) (sanitizationThreshold : Z)
  (currentReportBuilder : RetryReportBuilder.t) : M E JsValue :=
  let updatedReportBuilder := withAttempt currentReportBuilder in
  timedOut <- isTimedOut timeout ;;
  if timedOut : bool then handleTimeout updatedReportBuilder
  else
    tryCatch
      (logger_debug (String.concat ""
         ["Attempting function, retries left: "; showNat retriesLeft]) ;;
       result <- invoke fn ;;
       if match RetryOptions.retryOnResult options with
          | Some retryOnResult => retryOnResult result
          | None => false
          end
       then
         if Z.of_nat retriesLeft >? 0 then
           handleRetryableResult attemptNext result retriesLeft delay
             timeout sanitizationThreshold updatedReportBuilder
         else
           (json <- stringifyInTemplate result ;;
            logger_debug (String.concat ""
              ["No retries left for retryable result. Returning result: ";
               json]) ;;
            handleSuccess result updatedReportBuilder)
       else handleSuccess result updatedReportBuilder)
      (fun error =>
         handleError attemptNext error retriesLeft delay timeout
           sanitizationThreshold updatedReportBuilder).

(** [retriesLeft] starts at [Math.max(0, options.retries)] and only
    decreases, one per recursive call, and both recursive calls are
    taken under [retriesLeft > 0]: at [0] the continuation is never
    run (lemma [attemptBody_at_zero]). *)
Fixpoint attempt (retriesLeft : nat) (delay : Z) (timeout : option Z)
  (sanitizationThreshold : Z)
  (currentReportBuilder : RetryReportBuilder.t) {struct retriesLeft}
  : M E JsValue :=
  attemptBody
    (match retriesLeft with
     | S retriesLeft' => attempt retriesLeft'
     | O => fun _ _ _ _ => ret JsUndefined
     end)
    retriesLeft delay timeout sanitizationThreshold currentReportBuilder.

Definition retry : M E JsValue :=
  complete validateOptions ;;
  let retries := Z.max 0 (RetryOptions.retries options) in
  let delay :=
    Z.max 0 (match RetryOptions.delay options with
             | Some d => d
             | None => 0
             end) in
  timeout <-
    match RetryOptions.timeout options with
    | Some t =>
        if t =? 0 then ret None
        else (n <- timer_now ;; ret (Some (n + t)))
    | None => ret None
    end ;;
  let sanitizationThreshold :=
    match RetryOptions.sanitizationThreshold options with
    | Some t => t
    | None => 500
    end in
  startTime <- timer_now ;;
  attempt (Z.to_nat retries) delay timeout sanitizationThreshold
    (RetryReportBuilder.new startTime).

End Methods.

(** The validation of [build], applied to a report made elsewhere: the
    object [{ report, build: RetryReportBuilder.prototype.build }]. *)
Definition _validateRetryReport (report : RetryReport)
  : Completion RetryReport :=
  RetryReportBuilder.build {| RetryReportBuilder.report := report |}.

End RetryService.

(* ================================================================== *)
(** ** DataErrorPayload.utils.ts *)
(* ================================================================== *)

Module DataErrorPayloadUtil.

(** The values a payload is made of.  An object is the list of its own
    properties, looked up from the front; an [Error] has a name and a
    message. *)
#[warnings="-register-all"]
Inductive Value : Type :=
| PUndefined
| PNull
| PBool (b : bool)
| PNumber (n : Z)
| PString (s : string)
| PError (e : ErrorObj)
| PObject (props : list (string * Value)).

(** [value === null] *)
Definition isNull (v : Value) : bool :=
  match v with PNull => true | _ => false end.

(** [typeof value === "object"] *)
Definition isObjectType (v : Value) : bool :=
  match v with PNull | PError _ | PObject _ => true | _ => false end.

Fixpoint lookup (key : string) (props : list (string * Value))
  : option Value :=
  match props with
  | [] => None
  | (k, v) :: rest => if String.eqb k key then Some v else lookup key rest
  end.

(** [key in value], for a value that passed the two tests above and a
    key that no prototype defines, as ["data"] and ["error"]. *)
Definition has (key : string) (v : Value) : bool :=
  match v with
  | PObject props =>
      match lookup key props with Some _ => true | None => false end
  | _ => false
  end.

(** [value[key]], for such a key: [None] when the access throws, which
    it does on [null] and [undefined]. *)
Definition get (v : Value) (key : string) : option Value :=
  match v with
  | PNull | PUndefined => None
  | PObject props =>
      match lookup key props with
      | Some x => Some x
      | None => Some PUndefined
      end
  | _ => Some PUndefined
  end.

(** [value[key] === null] *)
Definition propertyIsNull (v : Value) (key : string) : bool :=
  match get v key with
  | Some x => isNull x
  | None => false
  end.

Definition create (data : Value) : Value :=
  PObject [("data", data); ("error", PNull)].

Definition createErr (error : Value) : Value :=
  PObject [("data", PNull); ("error", error)].

Definition isOk (payload : Value) : bool :=
  negb (isNull payload) && isObjectType payload && has "data" payload
  && has "error" payload && propertyIsNull payload "error".

Definition isErr (payload : Value) : bool :=
  negb (isNull payload) && isObjectType payload && has "data" payload
  && has "error" payload && propertyIsNull payload "data"
  && negb (propertyIsNull payload "error").

Definition extractOkPayload (payload : Value) : option Value :=
  get payload "data".

Definition extractErrorPayload (payload : Value) : option Value :=
  get payload "error".

Definition isDataErrorPayload (value : Value) : bool :=
  negb (isNull value) && isObjectType value && has "data" value
  && has "error" value
  && negb (negb (propertyIsNull value "data")
           && negb (propertyIsNull value "error")).

End DataErrorPayloadUtil.

(* ================================================================== *)
(** ** Concrete collaborators *)
(* ================================================================== *)

Module Fixtures.

(** A handler whose methods do nothing. *)
Definition quietHandler {E : Type} : LogHandler.t E :=
  let m := fun (_ : string) (e : E) => (Normal tt, e) in
  {| LogHandler.trace := m; LogHandler.debug := m; LogHandler.log := m;
     LogHandler.info := m; LogHandler.warn := m; LogHandler.error := m |}.

(** A handler every method of which throws. *)
Definition sinkFailure : JsValue := JsError (MkError "Error" "sink failure" None).

Definition failingHandler {E : Type} : LogHandler.t E :=
  let m := fun (_ : string) (e : E) => (@Throw unit sinkFailure, e) in
  {| LogHandler.trace := m; LogHandler.debug := m; LogHandler.log := m;
     LogHandler.info := m; LogHandler.warn := m; LogHandler.error := m |}.

(** The handler that acts on the environment as [handler] does and
    returns normally where [handler] throws. *)
Definition silenced {E : Type} (handler : LogHandler.t E) : LogHandler.t E :=
  let quiet := fun (m : string -> E -> Completion unit * E)
                   (message : string) (e : E) =>
                 (Normal tt, snd (m message e)) in
  {| LogHandler.trace := quiet (LogHandler.trace handler);
     LogHandler.debug := quiet (LogHandler.debug handler);
     LogHandler.log := quiet (LogHandler.log handler);
     LogHandler.info := quiet (LogHandler.info handler);
     LogHandler.warn := quiet (LogHandler.warn handler);
     LogHandler.error := quiet (LogHandler.error handler) |}.

(** A clock that always reads [0]; waiting does nothing. *)
Definition frozenTimer {E : Type} : Timer E :=
  {| delay := fun _ e => e; now := fun e => (0, e) |}.

(** The environment of the scripted runs: the time elapsed and the
    number of invocations of the operation so far. *)
Record Env : Type := { elapsed : nat; invocations : nat }.

(** A clock that reads [origin] plus the time elapsed; waiting lets the
    time pass. *)
Definition steppingTimer (origin : Z) : Timer Env :=
  {| delay := fun ms e => {| elapsed := elapsed e + Z.to_nat ms;
                             invocations := invocations e |};
     now := fun e => (origin + Z.of_nat (elapsed e), e) |}.

(** The same clock, when reading it takes one unit of time. *)
Definition tickingTimer (origin : Z) : Timer Env :=
  {| delay := fun ms e => {| elapsed := elapsed e + Z.to_nat ms;
                             invocations := invocations e |};
     now := fun e => (origin + Z.of_nat (elapsed e),
                      {| elapsed := S (elapsed e);
                         invocations := invocations e |}) |}.

(** An operation whose [n]-th invocation (from [0]) ends as [script n]
    and takes [cost] units of time. *)
Definition scripted (cost : nat) (script : nat -> Completion JsValue)
  : Env -> Completion JsValue * Env :=
  fun e => (script (invocations e),
            {| elapsed := elapsed e + cost;
               invocations := S (invocations e) |}).

Definition circular : JsValue := JsObject 0.
Definition smallArray : JsValue := JsObject 1.
Definition bareObject : JsValue := JsObject 2.

(** A runtime in which object [0] is circular, object [1] is the array
    [[1,2,3]], object [2] is an empty object without a constructor, and
    every other object is [{}]. *)
Definition demoHost : Host :=
  {| JSON_stringify := fun v =>
       match v with
       | JsUndefined => JsonUndefined
       | JsNull => JsonText "null"
       | JsBool true => JsonText "true"
       | JsBool false => JsonText "false"
       | JsNumber n => JsonText (showZ n)
       | JsString s => JsonText (String.concat "" [dquote; s; dquote])
       | JsObject 0 =>
           JsonThrows
             (JsError (MkError "TypeError"
                         "Converting circular structure to JSON" None))
       | JsObject 1 => JsonText "[1,2,3]"
       | JsObject _ => JsonText "{}"
       | JsError _ => JsonText "{}"
       end;
     constructor_name := fun v =>
       match v with
       | JsObject 1 => Some "Array"
       | JsObject 2 => None
       | JsObject _ => Some "Object"
       | JsError _ => Some "Error"
       | _ => None
       end;
     String_of := fun v =>
       match v with
       | JsUndefined => "undefined"
       | JsNull => "null"
       | JsBool true => "true"
       | JsBool false => "false"
       | JsNumber n => showZ n
       | JsString s => s
       | JsObject 1 => "1,2,3"
       | JsObject _ => "[object Object]"
       | JsError e => String.concat "" [err_name e; ": "; err_message e]
       end |}.

(** The service of the test suite: a silent logger, a clock under
    control. *)
Definition quietService (origin : Z) : RetryService.t Env :=
  {| RetryService.logger := quietHandler;
     RetryService.timer := steppingTimer origin |}.

(** Only [retries] set, and the optional fields given. *)
Definition policy (retries : Z) (delay : option Z)
  (exponentialBackoff : option bool)
  (retryOnError retryOnResult : option (JsValue -> bool))
  (timeout : option Z) : RetryOptions.t Env :=
  {| RetryOptions.retries := retries;
     RetryOptions.delay := delay;
     RetryOptions.exponentialBackoff := exponentialBackoff;
     RetryOptions.retryOnError := retryOnError;
     RetryOptions.retryOnResult := retryOnResult;
     RetryOptions.timeout := timeout;
     RetryOptions.onComplete := Some (fun _ e => e);
     RetryOptions.sanitizeRetryReasons := None;
     RetryOptions.sanitizationThreshold := None |}.

Definition start : State Env :=
  {| env := {| elapsed := 0; invocations := 0 |};
     journal := emptyJournal |}.

Definition errorX : JsValue := JsError (MkError "Error" "X" None).

Definition alwaysThrows (v : JsValue) : nat -> Completion JsValue :=
  fun _ => Throw v.

Definition isPending (v : JsValue) : bool :=
  match v with
  | JsString s => String.eqb s "pending"
  | _ => false
  end.

(** Returns ["pending"] once, then throws [Error("X")]. *)
Definition pendingThenFails : nat -> Completion JsValue :=
  fun n => match n with
           | O => Normal (JsString "pending")
           | S _ => Throw errorX
           end.

(** The policies and operations of the worked examples. *)
Definition retryTwice : RetryOptions.t Env :=
  policy 2 (Some 0) None None None None.

Definition alwaysX : Env -> Completion JsValue * Env :=
  scripted 0 (alwaysThrows errorX).

Definition alwaysBoom : Env -> Completion JsValue * Env :=
  scripted 0 (alwaysThrows (JsString "boom")).

Definition negativeRetries : RetryOptions.t Env :=
  policy (-1) (Some 0) None None None None.

(** [retries: 1] with a [retryOnResult] that flags ["pending"]. *)
Definition retryOncePending : RetryOptions.t Env :=
  policy 1 (Some 0) None None (Some isPending) None.

(** [retries: 0] with a [retryOnResult] that flags every result. *)
Definition noRetriesAnyResult : RetryOptions.t Env :=
  policy 0 None None None (Some (fun _ => true)) None.

Definition returnsCircular : Env -> Completion JsValue * Env :=
  scripted 0 (fun _ => Normal circular).

Definition returnsArray : Env -> Completion JsValue * Env :=
  scripted 0 (fun _ => Normal smallArray).

Definition returnsOk : Env -> Completion JsValue * Env :=
  scripted 0 (fun _ => Normal (JsString "ok")).

(** A service handed the throwing handler as it is. *)
Definition failingService : RetryService.t Env :=
  {| RetryService.logger := failingHandler;
     RetryService.timer := steppingTimer 1000 |}.

(** The continuation of an iteration that has none. *)
Definition noNext : RetryService.Attempt (E := Env) :=
  fun _ _ _ _ => ret JsUndefined.

(** The same service once the handler is silenced. *)
Definition silencedService : RetryService.t Env :=
  {| RetryService.logger := silenced failingHandler;
     RetryService.timer := steppingTimer 1000 |}.

(** A silent logger and a clock that ticks when read. *)
Definition tickingService (origin : Z) : RetryService.t Env :=
  {| RetryService.logger := quietHandler;
     RetryService.timer := tickingTimer origin |}.

(** [retries: 5, timeout: 100] *)
Definition timeoutHundred : RetryOptions.t Env :=
  policy 5 None None None None (Some 100).

(** An operation that takes [cost] units of time and throws
    [Error("X")]. *)
Definition slowFailure (cost : nat) : Env -> Completion JsValue * Env :=
  scripted cost (alwaysThrows errorX).

(** Returns ["pending"] twice, then ["success"]. *)
Definition pendingTwice : nat -> Completion JsValue :=
  fun n => match n with
           | O | S O => Normal (JsString "pending")
           | _ => Normal (JsString "success")
           end.

(** [retries: 3, delay: 10] with a [retryOnResult] that flags
    ["pending"]. *)
Definition retryWhilePending : RetryOptions.t Env :=
  policy 3 (Some 10) None None (Some isPending) None.

(** [retries: 3, delay: 100, exponentialBackoff: true] *)
Definition backoffThrice : RetryOptions.t Env :=
  policy 3 (Some 100) (Some true) None None None.

(** [retries: 2, delay: 10, exponentialBackoff: true] with a
    [retryOnError] that rejects every error. *)
Definition backoffNeverRetried : RetryOptions.t Env :=
  policy 2 (Some 10) (Some true) (Some (fun _ => false)) None None.

(** Throws [Error("X")] on its first [k] invocations, then returns
    ["ok"]. *)
Definition failingUntil (k : nat) : nat -> Completion JsValue :=
  fun n => if (n <? k)%nat then Throw errorX else Normal (JsString "ok").

(** The failures [failingUntil k] has still to make. *)
Definition failuresLeft (k : nat) (e : Env) : nat :=
  (k - invocations e)%nat.

(** A [Logger] at the default level over the throwing handler, and the
    service built on it. *)
Definition defaultLogger : Logger.t Env :=
  {| Logger.currentLevel := LevelInfo;
     Logger.logHandler := failingHandler |}.

Definition verboseLogger : Logger.t Env :=
  {| Logger.currentLevel := LevelTrace;
     Logger.logHandler := quietHandler |}.

End Fixtures.

(* ================================================================== *)
(** ** Reasoning about computations *)
(* ================================================================== *)

Section WeakestPreconditions.

Context {E : Type}.

(** [wp m Q st]: run from [st], [m] ends in a completion and a state
    that satisfy [Q]. *)
Definition wp {A : Type} (m : M E A)
  (Q : Completion A -> State E -> Prop) (st : State E) : Prop :=
  Q (fst (m st)) (snd (m st)).

(** [delays] and [retryReasons] have the same number of entries. *)
Definition balanced (r : RetryReport) : Prop :=
  List.length (delays r) =
  List.length (match retryReasons r with Some l => l | None => [] end).

(** The handler's [debug] returns normally. *)
Definition quietLogger (svc : RetryService.t E) : Prop :=
  forall message e,
    fst (LogHandler.debug (RetryService.logger svc) message e) = Normal tt.

(** No reading of the clock is earlier than [t], in any environment:
    [E] is the set of environments the collaborators can be in. *)
Definition clockNotBefore (svc : RetryService.t E) (t : Z) : Prop :=
  forall e, t <= fst (now (RetryService.timer svc) e).

(** The journal after [options.onComplete] was called, if it is set. *)
Definition notified (options : RetryOptions.t E) (r : RetryReport)
  (j : Journal) : Journal :=
  match RetryOptions.onComplete options with
  | Some _ => addCompletion r j
  | None => j
  end.

(** The delays computed by successive retries, from the retry taken with
    [retriesLeft] retries left down to the one taken with [1] left. *)
Fixpoint delaysFrom (options : RetryOptions.t E) (baseDelay : Z)
  (retriesLeft : nat) : list Z :=
  match retriesLeft with
  | O => []
  | S r =>
      RetryService.calculateDelay options retriesLeft baseDelay
        :: delaysFrom options baseDelay r
  end.

(** What [handleNonRetryableError] throws for an error that was to be
    retried when no retries are left: it wraps an [Error], and throws
    anything else as it is. *)
Definition exhaustedWith (options : RetryOptions.t E) (error : JsValue)
  : JsValue :=
  match error with
  | JsError e =>
      JsError (RetryAttemptsExceededError
                 (String.concat ""
                    ["Maximum retry attempts (";
                     showZ (RetryOptions.retries options);
                     ") exceeded: "; err_message e])
                 (Some e))
  | _ => error
  end.

(** [shouldRetry] in [handleError]. *)
Definition judgedRetryable (options : RetryOptions.t E) (error : JsValue)
  : bool :=
  match RetryOptions.retryOnError options with
  | None => true
  | Some retryOnError => retryOnError error
  end.

(** The durations [timer.delay] is called with: the non-zero ones. *)
Definition awaited (ds : list Z) : list Z :=
  filter (fun d => negb (d =? 0)) ds.

(** Every value the operation has thrown so far was judged retryable. *)
Definition cleanCalls (options : RetryOptions.t E) (j : Journal) : Prop :=
  forall v, In (Throw v) (calls j) -> judgedRetryable options v = true.

(** A value the operation threw and [retryOnError] rejected is what the
    computation completes with. *)
Definition surfaces (options : RetryOptions.t E) (c : Completion JsValue)
  (j : Journal) : Prop :=
  forall v, In (Throw v) (calls j) -> judgedRetryable options v = false ->
            c = Throw v.

(** [report.retryReasons || []] *)
Definition reasonsOf (r : RetryReport) : list RetryReason :=
  match retryReasons r with Some l => l | None => [] end.

(** Every report journalled so far is balanced. *)
Definition allBalanced (j : Journal) : Prop :=
  Forall balanced (finals j) /\ Forall balanced (completions j).

End WeakestPreconditions.

(** Every report journalled, built or handed to the hook, satisfies
    [R]. *)
Definition allReports (R : RetryReport -> Prop) (j : Journal) : Prop :=
  Forall R (finals j) /\ Forall R (completions j).

(** The level each method of [Logger] tests before it forwards: [log]
    tests ["info"]. *)
Definition methodLevel (m : LogMethod) : LogLevel :=
  match m with
  | MethodTrace => LevelTrace
  | MethodDebug => LevelDebug
  | MethodLog => LevelInfo
  | MethodInfo => LevelInfo
  | MethodWarn => LevelWarn
  | MethodError => LevelError
  end.

(** *** What a call leaves in the journal

    The journal an iteration ends with, whatever the collaborators do.
    [next] is what the recursive call with one retry less can do. *)

Section Traces.

Context {E : Type}.
Variable options : RetryOptions.t E.
Variable delay : Z.

(** The journal once a report was built and the hook told. *)
Definition finished (r : RetryReport) (j : Journal) : Journal :=
  notified options r (addFinal r j).

(** The journal once the computed delay was awaited, if it is not [0]. *)
Definition waited (retriesLeft : nat) (j : Journal) : Journal :=
  let currentDelay := RetryService.calculateDelay options retriesLeft delay in
  if currentDelay =? 0 then j else addWait currentDelay j.

(** [options.retryOnResult && options.retryOnResult(result)] *)
Definition flagged (result : JsValue) : bool :=
  match RetryOptions.retryOnResult options with
  | Some retryOnResult => retryOnResult result
  | None => false
  end.

Section Iteration.

Variable next : Journal -> Completion JsValue -> Journal -> Prop.
Variable retriesLeft : nat.

(** The [try] block: it throws before the operation is invoked, the
    operation throws, something throws after the operation returned, a
    report marked as succeeded is built and the value returned, or a
    flagged value is retried. *)
Inductive tried : Journal -> Completion JsValue -> Journal -> Prop :=
| tried_nothing : forall j x, tried j (Throw x) j
| tried_threw : forall j x, tried j (Throw x) (addCall (Throw x) j)
| tried_lost : forall j v x, tried j (Throw x) (addCall (Normal v) j)
| tried_succeeded : forall j v r,
    retryingOperationSucceeded r = true ->
    tried j (Normal v) (finished r (addCall (Normal v) j))
| tried_again : forall j v c j',
    flagged v = true -> retriesLeft <> O ->
    next (waited retriesLeft (addCall (Normal v) j)) c j' ->
    tried j c j'.

(** The [catch] block: it throws before a report is built, it builds a
    report marked as failed and throws, or it retries. *)
Inductive caught : Journal -> Completion JsValue -> Journal -> Prop :=
| caught_stopped : forall j x, caught j (Throw x) j
| caught_failed : forall j x r,
    retryingOperationSucceeded r = false ->
    caught j (Throw x) (finished r j)
| caught_again : forall j c j',
    retriesLeft <> O ->
    next (waited retriesLeft j) c j' ->
    caught j c j'.

(** An iteration: the deadline has passed, or the [try] block returns,
    or the [catch] block handles what it threw. *)
Inductive iterated : Journal -> Completion JsValue -> Journal -> Prop :=
| iterated_stopped : forall j x, iterated j (Throw x) j
| iterated_timeout : forall j x r,
    timedOut r = Some true -> retryingOperationSucceeded r = false ->
    iterated j (Throw x) (finished r j)
| iterated_returned : forall j v j',
    tried j (Normal v) j' -> iterated j (Normal v) j'
| iterated_caught : forall j x j1 c j',
    tried j (Throw x) j1 -> caught j1 c j' -> iterated j c j'.

End Iteration.

Fixpoint attempted (retriesLeft : nat)
  : Journal -> Completion JsValue -> Journal -> Prop :=
  iterated
    (match retriesLeft with
     | S retriesLeft' => attempted retriesLeft'
     | O => fun _ _ _ => False
     end)
    retriesLeft.

(** The most invocations of the operation, and the most reports, a call
    with [retriesLeft] retries can make: a retry decided on a result is
    awaited inside the [try] block, so what it throws is handled, and
    possibly retried, a second time. *)
Definition invocationBound (retriesLeft : nat) : nat :=
  match RetryOptions.retryOnResult options with
  | None => (retriesLeft + 1)%nat
  | Some _ => (2 ^ (retriesLeft + 1) - 1)%nat
  end.

Definition reportBound (retriesLeft : nat) : nat :=
  match RetryOptions.retryOnResult options with
  | None => 1%nat
  | Some _ => (2 ^ retriesLeft)%nat
  end.

(** [onComplete] was handed the reports that were built, and nothing
    when there is no hook. *)
Definition delivered (j : Journal) : Prop :=
  completions j =
  match RetryOptions.onComplete options with
  | Some _ => finals j
  | None => []
  end.

End Traces.

(* ================================================================== *)
(** ** Facts about values and the report builder *)
(* ================================================================== *)

Lemma lastOf_snoc : forall (A : Type) (l : list A) (x : A),
  lastOf (l ++ [x]) = Some x.
Proof.
  induction l as [|y l IH]; intros x; [reflexivity|].
  cbn [app lastOf]. destruct (l ++ [x]) eqn:Hl.
  - destruct l; discriminate.
  - rewrite <- Hl. apply IH.
Qed.

Lemma concat_empty_sep : forall (s : string) (l : list string),
  String.concat "" (s :: l) = (s ++ String.concat "" l)%string.
Proof.
  intros s [|t l]; cbn [String.concat].
  - induction s as [|c s IH]; cbn; [reflexivity | now rewrite <- IH].
  - reflexivity.
Qed.

Module BuilderFacts.

Import RetryReportBuilder.

Lemma build_ok : forall b,
  0 <= totalTime (report b) -> 0 <= attempts (report b) ->
  build b = Normal (report b).
Proof.
  intros b Ht Ha. unfold build.
  destruct (Z.ltb_spec (totalTime (report b)) 0); [lia|].
  destruct (Z.ltb_spec (attempts (report b)) 0); [lia|reflexivity].
Qed.

(** Whatever [build] returns is the builder's own report. *)
Lemma build_report : forall b r, build b = Normal r -> r = report b.
Proof.
  intros b r. unfold build.
  destruct (totalTime (report b) <? 0); [discriminate|].
  destruct (attempts (report b) <? 0); [discriminate|].
  now intros [= <-].
Qed.

Lemma balanced_new : forall t, balanced (report (new t)).
Proof. reflexivity. Qed.

Lemma balanced_withAttempt : forall b,
  balanced (report b) -> balanced (report (withAttempt b)).
Proof. intros b H; exact H. Qed.

Lemma balanced_withError : forall h v b,
  balanced (report b) -> balanced (report (withError h v b)).
Proof. intros h v b H; exact H. Qed.

Lemma balanced_withSuccess : forall t b,
  balanced (report b) -> balanced (report (withSuccess t b)).
Proof. intros t b H; exact H. Qed.

Lemma balanced_withTimeout : forall t b,
  balanced (report b) -> balanced (report (withTimeout t b)).
Proof. intros t b H; exact H. Qed.

Lemma balanced_withFailure : forall t b,
  balanced (report b) -> balanced (report (withFailure t b)).
Proof. intros t b H; exact H. Qed.

(** One decision to retry: one reason and one delay. *)
Lemma balanced_retry_step : forall h ty v s thr d b,
  balanced (report b) ->
  balanced (report (withDelay d (withRetryReason h ty v s thr b))).
Proof.
  intros h ty v s thr d b H. unfold balanced in *. cbn.
  rewrite !length_app. cbn. now rewrite H.
Qed.

End BuilderFacts.

(* ================================================================== *)
(** ** Rules for [wp] *)
(* ================================================================== *)

Section Rules.

Context {E : Type}.
Implicit Types st : State E.

Lemma wp_ret : forall A (a : A) (Q : Completion A -> State E -> Prop) st,
  Q (Normal a) st -> wp (ret a) Q st.
Proof. intros; assumption. Qed.

Lemma wp_throw : forall A v (Q : Completion A -> State E -> Prop) st,
  Q (Throw v) st -> wp (throw v) Q st.
Proof. intros; assumption. Qed.

Lemma wp_complete : forall A (c : Completion A) Q st,
  Q c st -> wp (complete c) Q st.
Proof. intros; assumption. Qed.

Lemma wp_bind : forall A B (m : M E A) (k : A -> M E B) Q st,
  wp m (fun c st' =>
          match c with
          | Normal a => wp (k a) Q st'
          | Throw v => Q (Throw v) st'
          end) st ->
  wp (bind m k) Q st.
Proof.
  unfold wp, bind. intros A B m k Q st H.
  destruct (m st) as [[a|v] st']; exact H.
Qed.

Lemma wp_tryCatch : forall A (body : M E A) (handler : JsValue -> M E A)
  Q st,
  wp body (fun c st' =>
             match c with
             | Normal a => Q (Normal a) st'
             | Throw v => wp (handler v) Q st'
             end) st ->
  wp (tryCatch body handler) Q st.
Proof.
  unfold wp, tryCatch. intros A body handler Q st H.
  destruct (body st) as [[a|v] st']; exact H.
Qed.

Lemma wp_conseq : forall A (m : M E A) (Q Q' : Completion A -> State E -> Prop)
  st,
  wp m Q st -> (forall c st', Q c st' -> Q' c st') -> wp m Q' st.
Proof. unfold wp. intros A m Q Q' st H HQ. now apply HQ. Qed.

(** A call into a collaborator leaves the journal alone. *)
Lemma wp_call : forall A (f : E -> Completion A * E) Q st,
  (forall e', Q (fst (f (env st))) {| env := e'; journal := journal st |}) ->
  wp (call f) Q st.
Proof.
  unfold wp, call. intros A f Q st H.
  destruct (f (env st)) as [c e']. apply H.
Qed.

Lemma wp_invoke : forall (fn : E -> Completion JsValue * E) Q st,
  (forall e', Q (fst (fn (env st)))
                {| env := e';
                   journal := addCall (fst (fn (env st))) (journal st) |}) ->
  wp (invoke fn) Q st.
Proof.
  unfold wp, invoke. intros fn Q st H.
  destruct (fn (env st)) as [c e']. apply H.
Qed.

Lemma wp_finalize : forall (c : Completion RetryReport) Q st,
  match c with
  | Normal r =>
      Q (Normal r) {| env := env st; journal := addFinal r (journal st) |}
  | Throw v => Q (Throw v) st
  end ->
  wp (finalize c) Q st.
Proof. unfold wp, finalize. intros [r|v] Q st H; exact H. Qed.

Variable host : Host.
Variable svc : RetryService.t E.

Lemma wp_logger_debug : forall message Q st,
  (forall c e', Q c {| env := e'; journal := journal st |}) ->
  wp (RetryService.logger_debug svc message) Q st.
Proof. intros message Q st H. apply wp_call. intros e'. apply H. Qed.

Lemma wp_logger_debug_quiet : forall message Q st,
  quietLogger svc ->
  (forall e', Q (Normal tt) {| env := e'; journal := journal st |}) ->
  wp (RetryService.logger_debug svc message) Q st.
Proof.
  intros message Q st Hq H. apply wp_call. intros e'.
  rewrite Hq. apply H.
Qed.

Lemma wp_timer_now : forall Q st,
  (forall e', Q (Normal (fst (now (RetryService.timer svc) (env st))))
                {| env := e'; journal := journal st |}) ->
  wp (RetryService.timer_now svc) Q st.
Proof.
  intros Q st H. apply wp_call. intros e'.
  destruct (now (RetryService.timer svc) (env st)) as [n e1]. apply H.
Qed.

Lemma wp_timer_now_exact : forall Q st,
  Q (Normal (fst (now (RetryService.timer svc) (env st))))
    {| env := snd (now (RetryService.timer svc) (env st));
       journal := journal st |} ->
  wp (RetryService.timer_now svc) Q st.
Proof.
  intros Q st H. unfold wp, RetryService.timer_now, call.
  destruct (now (RetryService.timer svc) (env st)) as [n e1]. exact H.
Qed.

Lemma wp_timer_delay : forall ms Q st,
  (forall e', Q (Normal tt)
                {| env := e'; journal := addWait ms (journal st) |}) ->
  wp (RetryService.timer_delay svc ms) Q st.
Proof. intros ms Q st H. apply H. Qed.

Lemma wp_notifyComplete : forall options r Q st,
  (forall e', Q (Normal tt)
                {| env := e'; journal := notified options r (journal st) |}) ->
  wp (RetryService.notifyComplete options r) Q st.
Proof.
  intros options r Q st H. unfold wp, RetryService.notifyComplete, notified in *.
  destruct (RetryOptions.onComplete options) as [hook|].
  - apply H.
  - destruct st as [e j]. apply H.
Qed.

(** Reading the deadline never touches the journal. *)
Lemma wp_isTimedOut : forall timeout Q st,
  (forall (timedOut : bool) e',
      Q (Normal timedOut) {| env := e'; journal := journal st |}) ->
  wp (RetryService.isTimedOut svc timeout) Q st.
Proof.
  intros timeout Q st H. unfold RetryService.isTimedOut.
  destruct timeout as [t|]; [destruct (t =? 0)|].
  - apply wp_ret. destruct st; apply H.
  - apply wp_bind, wp_timer_now. intros e'. apply wp_ret, H.
  - apply wp_ret. destruct st; apply H.
Qed.

Lemma wp_stringifyInTemplate : forall result Q st,
  (forall json, Q (Normal json) st) ->
  (forall v, Q (Throw v) st) ->
  wp (RetryService.stringifyInTemplate (E := E) host result) Q st.
Proof.
  intros result Q st Hn Ht. unfold RetryService.stringifyInTemplate.
  destruct (JSON_stringify host result); [apply Hn | apply Hn | apply Ht].
Qed.

End Rules.

Ltac wp_simpl := cbv beta iota; cbn [env journal fst snd].

(** One step through a computation, by the rule for its head. *)
Ltac wp_step :=
  lazymatch goal with
  | |- wp (bind _ _) _ _ => apply wp_bind
  | |- wp (tryCatch _ _) _ _ => apply wp_tryCatch
  | |- wp (ret _) _ _ => apply wp_ret
  | |- wp (throw _) _ _ => apply wp_throw
  | |- wp (complete _) _ _ => apply wp_complete
  | |- wp (RetryService.timer_now _) _ _ =>
      apply wp_timer_now; intros ?
  | |- wp (RetryService.timer_delay _ _) _ _ =>
      apply wp_timer_delay; intros ?
  | |- wp (RetryService.notifyComplete _ _) _ _ =>
      apply wp_notifyComplete; intros ?
  | |- wp (invoke _) _ _ => apply wp_invoke; intros ?
  | |- wp (finalize _) _ _ => apply wp_finalize
  end; wp_simpl.

(* ================================================================== *)
(** ** The continuation of the last iteration *)
(* ================================================================== *)

(** With no retries left, an iteration never runs its continuation:
    both recursive calls are guarded by [retriesLeft > 0]. *)
Lemma attemptBody_at_zero :
  forall E (host : Host) (svc : RetryService.t E)
    (fn : E -> Completion JsValue * E) (options : RetryOptions.t E)
    (next1 next2 : RetryService.Attempt) delay timeout threshold b,
    RetryService.attemptBody host svc fn options next1 0 delay timeout
      threshold b =
    RetryService.attemptBody host svc fn options next2 0 delay timeout
      threshold b.
Proof.
  intros E host svc fn options next1 next2 delay timeout threshold b.
  assert (Hh : forall error b',
    RetryService.handleError host svc options next1 error 0 delay timeout
      threshold b' =
    RetryService.handleError host svc options next2 error 0 delay timeout
      threshold b').
  { intros error b'. unfold RetryService.handleError.
    cbn [Z.of_nat Z.leb Z.compare]. now rewrite !orb_true_r. }
  unfold RetryService.attemptBody. cbn [Z.of_nat Z.gtb Z.compare].
  f_equal. extensionality timedOut. destruct timedOut; [reflexivity|].
  f_equal. extensionality error. apply Hh.
Qed.

(* ================================================================== *)
(** ** Every journalled report is balanced *)
(* ================================================================== *)

Section Balance.

Context {E : Type}.
Variable host : Host.
Variable svc : RetryService.t E.
Variable fn : E -> Completion JsValue * E.
Variable options : RetryOptions.t E.

Import RetryReportBuilder.

Local Abbreviation keeps m st :=
  (wp m (fun _ st' => allBalanced (journal st')) st).

Lemma allBalanced_addFinal : forall r j,
  balanced r -> allBalanced j -> allBalanced (addFinal r j).
Proof.
  intros r j Hr [Hf Hc]. split; cbn; [|exact Hc].
  apply Forall_app. split; [exact Hf | now constructor].
Qed.

Lemma allBalanced_notified : forall r j,
  balanced r -> allBalanced j -> allBalanced (notified options r j).
Proof.
  intros r j Hr [Hf Hc]. unfold notified.
  destruct (RetryOptions.onComplete options); [|now split].
  split; cbn; [exact Hf|].
  apply Forall_app. split; [exact Hc | now constructor].
Qed.

Lemma allBalanced_addCall : forall c j,
  allBalanced j -> allBalanced (addCall c j).
Proof. intros c j H; exact H. Qed.

Lemma allBalanced_addWait : forall ms j,
  allBalanced j -> allBalanced (addWait ms j).
Proof. intros ms j H; exact H. Qed.

(** The three terminal handlers: journal the built report, hand it to
    the hook. *)
Lemma finish_keeps : forall b (k : RetryReport -> M E JsValue) st,
  balanced (report b) -> allBalanced (journal st) ->
  (forall r st', allBalanced (journal st') -> keeps (k r) st') ->
  keeps (finalReport <- finalize (build b) ;;
         RetryService.notifyComplete options finalReport ;;
         k finalReport) st.
Proof.
  intros b k st Hb Hst Hk.
  wp_step. wp_step.
  destruct (build b) as [r|v] eqn:Hbuild; [|exact Hst].
  apply BuilderFacts.build_report in Hbuild. subst r.
  wp_step. wp_step. apply Hk. cbn.
  apply allBalanced_notified; [exact Hb|].
  apply allBalanced_addFinal; assumption.
Qed.

Lemma handleTimeout_keeps : forall b st,
  balanced (report b) -> allBalanced (journal st) ->
  keeps (RetryService.handleTimeout svc options b) st.
Proof.
  intros b st Hb Hst. unfold RetryService.handleTimeout.
  wp_step. apply wp_logger_debug. intros [[]|v] e'; wp_simpl; [|exact Hst].
  wp_step. wp_step.
  apply finish_keeps; [exact Hb | exact Hst |].
  intros r st' Hst'. wp_step. exact Hst'.
Qed.

Lemma handleSuccess_keeps : forall result b st,
  balanced (report b) -> allBalanced (journal st) ->
  keeps (RetryService.handleSuccess svc options result b) st.
Proof.
  intros result b st Hb Hst. unfold RetryService.handleSuccess.
  wp_step. wp_step.
  apply finish_keeps; [exact Hb | exact Hst |].
  intros r st' Hst'. wp_step. exact Hst'.
Qed.

Lemma handleNonRetryableError_keeps : forall error b retriesLeft shouldRetry
  st,
  balanced (report b) -> allBalanced (journal st) ->
  keeps (RetryService.handleNonRetryableError svc options error b
           retriesLeft shouldRetry) st.
Proof.
  intros error b retriesLeft shouldRetry st Hb Hst.
  unfold RetryService.handleNonRetryableError.
  wp_step. apply wp_logger_debug. intros [[]|v] e'; wp_simpl; [|exact Hst].
  wp_step. wp_step.
  apply finish_keeps; [exact Hb | exact Hst |].
  intros r st' Hst'.
  destruct error; try (wp_step; exact Hst').
  destruct (_ && _); wp_step; exact Hst'.
Qed.

Section Step.

Variable attemptNext : RetryService.Attempt (E := E).
Hypothesis next_keeps : forall delay timeout threshold b st,
  balanced (report b) -> allBalanced (journal st) ->
  keeps (attemptNext delay timeout threshold b) st.

Lemma retry_step_keeps : forall ty v cd delay timeout threshold b message
  st,
  balanced (report b) -> allBalanced (journal st) ->
  keeps (RetryService.logger_debug svc message ;;
         (if cd =? 0 then ret tt else RetryService.timer_delay svc cd) ;;
         attemptNext delay timeout threshold
           (withDelay cd
              (withRetryReason host ty v
                 (RetryService.sanitizeEnabled options) threshold b))) st.
Proof.
  intros ty v cd delay timeout threshold b message st Hb Hst.
  wp_step. apply wp_logger_debug. intros [[]|x] e'; wp_simpl; [|exact Hst].
  wp_step.
  destruct (cd =? 0); wp_step;
    (apply next_keeps;
     [now apply BuilderFacts.balanced_retry_step | exact Hst]).
Qed.

Lemma handleError_keeps : forall error retriesLeft delay timeout threshold
  b st,
  balanced (report b) -> allBalanced (journal st) ->
  keeps (RetryService.handleError host svc options attemptNext error
           retriesLeft delay timeout threshold b) st.
Proof.
  intros error retriesLeft delay timeout threshold b st Hb Hst.
  unfold RetryService.handleError.
  wp_step. apply wp_logger_debug. intros [[]|x] e'; wp_simpl; [|exact Hst].
  destruct (_ || _).
  - now apply handleNonRetryableError_keeps.
  - unfold RetryService.retryAfterError.
    now apply retry_step_keeps.
Qed.

Lemma attemptBody_keeps : forall retriesLeft delay timeout threshold b st,
  balanced (report b) -> allBalanced (journal st) ->
  keeps (RetryService.attemptBody host svc fn options attemptNext
           retriesLeft delay timeout threshold b) st.
Proof.
  intros retriesLeft delay timeout threshold b st Hb Hst.
  unfold RetryService.attemptBody.
  assert (Hb' : balanced (report (withAttempt b))) by exact Hb.
  wp_step. apply wp_isTimedOut. intros [|] e0; wp_simpl.
  { now apply handleTimeout_keeps. }
  wp_step. wp_step.
  apply wp_logger_debug. intros [[]|x] e1; wp_simpl;
    [|now apply handleError_keeps].
  wp_step. wp_step.
  destruct (fst (fn _)) as [result|x]; [|now apply handleError_keeps].
  assert (Hsucc : forall st2, allBalanced (journal st2) ->
            wp (RetryService.handleSuccess svc options result
                  (withAttempt b))
               (fun c st3 =>
                  match c with
                  | Normal a => allBalanced (journal st3)
                  | Throw v =>
                      keeps (RetryService.handleError host svc options
                               attemptNext v retriesLeft delay timeout
                               threshold (withAttempt b)) st3
                  end) st2).
  { intros st2 Hst2. unfold RetryService.handleSuccess.
    wp_step. wp_step. wp_step. wp_step.
    destruct (build _) as [r|x] eqn:Hbuild;
      [|now apply handleError_keeps].
    apply BuilderFacts.build_report in Hbuild. subst r.
    wp_step. wp_step. wp_step.
    apply allBalanced_notified; [exact Hb'|].
    apply allBalanced_addFinal; [exact Hb'|exact Hst2]. }
  destruct (match RetryOptions.retryOnResult options with
            | Some retryOnResult => retryOnResult result
            | None => false
            end); [|now apply Hsucc].
  destruct (Z.of_nat retriesLeft >? 0).
  - unfold RetryService.handleRetryableResult.
    eapply wp_conseq.
    + apply (retry_step_keeps ReasonResult result); [exact Hb'|exact Hst].
    + intros [a|v] st2 Hst2; [exact Hst2|now apply handleError_keeps].
  - wp_step. apply wp_stringifyInTemplate;
      [intros json | intros v; now apply handleError_keeps].
    wp_step. apply wp_logger_debug. intros [[]|x] e2; wp_simpl;
      [now apply Hsucc | now apply handleError_keeps].
Qed.

End Step.

Lemma attempt_keeps : forall retriesLeft delay timeout threshold b st,
  balanced (report b) -> allBalanced (journal st) ->
  keeps (RetryService.attempt host svc fn options retriesLeft delay timeout
           threshold b) st.
Proof.
  induction retriesLeft as [|r IH]; intros delay timeout threshold b st Hb Hst;
    cbn [RetryService.attempt]; apply attemptBody_keeps; try assumption.
  intros d t thr b' st' Hb' Hst'. wp_step. exact Hst'.
Qed.

Lemma retry_keeps : forall st,
  allBalanced (journal st) ->
  keeps (RetryService.retry host svc fn options) st.
Proof.
  intros st Hst. unfold RetryService.retry.
  wp_step. wp_step.
  destruct (RetryService.validateOptions options); [|exact Hst].
  wp_step.
  destruct (RetryOptions.timeout options) as [t|]; [destruct (t =? 0)|].
  - wp_step. wp_step. wp_step.
    apply attempt_keeps; [apply BuilderFacts.balanced_new | exact Hst].
  - wp_step. wp_step. wp_step. wp_step. wp_step.
    apply attempt_keeps; [apply BuilderFacts.balanced_new | exact Hst].
  - wp_step. wp_step. wp_step.
    apply attempt_keeps; [apply BuilderFacts.balanced_new | exact Hst].
Qed.

End Balance.

(* ================================================================== *)
(** ** The journal after the hook *)
(* ================================================================== *)

Section Notified.

Context {E : Type}.
Variable options : RetryOptions.t E.

Lemma calls_notified : forall r j,
  calls (notified options r j) = calls j.
Proof.
  intros r j. unfold notified.
  now destruct (RetryOptions.onComplete options).
Qed.

Lemma waits_notified : forall r j,
  waits (notified options r j) = waits j.
Proof.
  intros r j. unfold notified.
  now destruct (RetryOptions.onComplete options).
Qed.

Lemma finals_notified : forall r j,
  finals (notified options r j) = finals j.
Proof.
  intros r j. unfold notified.
  now destruct (RetryOptions.onComplete options).
Qed.

Lemma completions_notified : forall r j,
  completions (notified options r j) =
  completions j ++ match RetryOptions.onComplete options with
                   | Some _ => [r]
                   | None => []
                   end.
Proof.
  intros r j. unfold notified.
  destruct (RetryOptions.onComplete options); cbn;
    [reflexivity | now rewrite app_nil_r].
Qed.

End Notified.

Ltac journal_simpl :=
  cbn [journal env];
  rewrite ?calls_notified, ?waits_notified, ?finals_notified,
    ?completions_notified;
  cbn [calls waits finals completions addCall addWait addFinal addCompletion
       journal env].

(* ================================================================== *)
(** ** The terminal handlers, with a logger that returns normally *)
(* ================================================================== *)

Section Handlers.

Context {E : Type}.
Variable host : Host.
Variable svc : RetryService.t E.
Variable options : RetryOptions.t E.

Import RetryReportBuilder.

Hypothesis logger_quiet : quietLogger svc.

(** The journal once the report of [b] is built and handed over. *)
Lemma wp_finish : forall b (k : RetryReport -> M E JsValue) Q st,
  0 <= totalTime (report b) -> 0 <= attempts (report b) ->
  (forall e',
      wp (k (report b)) Q
         {| env := e';
            journal := notified options (report b)
                         (addFinal (report b) (journal st)) |}) ->
  wp (finalReport <- finalize (build b) ;;
      RetryService.notifyComplete options finalReport ;;
      k finalReport) Q st.
Proof.
  intros b k Q st Ht Ha H.
  wp_step. wp_step. rewrite BuilderFacts.build_ok by assumption.
  wp_step. wp_step. apply H.
Qed.

Lemma handleNonRetryableError_spec : forall error b retriesLeft shouldRetry
  Q st,
  clockNotBefore svc (startTime (report b)) ->
  0 <= attempts (report b) ->
  (forall t e',
      startTime (report b) <= t ->
      Q (Throw (if (Z.of_nat retriesLeft <=? 0) && shouldRetry
                then exhaustedWith options error else error))
        {| env := e';
           journal := notified options (report (withFailure t b))
                        (addFinal (report (withFailure t b)) (journal st))
        |}) ->
  wp (RetryService.handleNonRetryableError svc options error b retriesLeft
        shouldRetry) Q st.
Proof.
  intros error b retriesLeft shouldRetry Q st Hclock Ha H.
  unfold RetryService.handleNonRetryableError.
  wp_step. apply wp_logger_debug_quiet; [assumption|]. intros e1. wp_simpl.
  wp_step. wp_step.
  apply wp_finish; [cbn; specialize (Hclock e1); lia | exact Ha |].
  intros e2.
  specialize (H (fst (now (RetryService.timer svc) e1)) e2 (Hclock e1)).
  destruct error; cbn [exhaustedWith] in H;
    try (destruct (_ && _) in H; wp_step; exact H).
  destruct (_ && _); wp_step; exact H.
Qed.

Lemma handleTimeout_spec : forall b Q st,
  clockNotBefore svc (startTime (report b)) ->
  0 <= attempts (report b) ->
  (forall t e',
      startTime (report b) <= t ->
      Q (Throw (JsError (RetryTimeoutError "Retry timeout exceeded"
                           (lastOf (errors (report b))))))
        {| env := e';
           journal := notified options (report (withTimeout t b))
                        (addFinal (report (withTimeout t b)) (journal st))
        |}) ->
  wp (RetryService.handleTimeout svc options b) Q st.
Proof.
  intros b Q st Hclock Ha H.
  unfold RetryService.handleTimeout.
  wp_step. apply wp_logger_debug_quiet; [assumption|]. intros e1. wp_simpl.
  wp_step. wp_step.
  apply wp_finish; [cbn; specialize (Hclock e1); lia | exact Ha |].
  intros e2. wp_step. apply H, Hclock.
Qed.

Lemma handleSuccess_spec : forall result b Q st,
  clockNotBefore svc (startTime (report b)) ->
  0 <= attempts (report b) ->
  (forall t e',
      startTime (report b) <= t ->
      Q (Normal result)
        {| env := e';
           journal := notified options (report (withSuccess t b))
                        (addFinal (report (withSuccess t b)) (journal st))
        |}) ->
  wp (RetryService.handleSuccess svc options result b) Q st.
Proof.
  intros result b Q st Hclock Ha H.
  unfold RetryService.handleSuccess.
  wp_step. wp_step.
  apply wp_finish; [cbn; specialize (Hclock (env st)); lia | exact Ha |].
  intros e2. wp_step. apply H, Hclock.
Qed.

End Handlers.

(* ================================================================== *)
(** ** An operation that fails on every invocation *)
(* ================================================================== *)

Section AlwaysFails.

Context {E : Type}.
Variable host : Host.
Variable svc : RetryService.t E.
Variable fn : E -> Completion JsValue * E.
Variable options : RetryOptions.t E.

Import RetryReportBuilder.

Hypothesis logger_quiet : quietLogger svc.
Hypothesis fn_fails : forall e, exists v, fst (fn e) = Throw v.
Hypothesis all_retryable : forall v, judgedRetryable options v = true.

(** With no timeout, [attempt] started with [retriesLeft] retries left
    invokes the operation [retriesLeft + 1] times, builds one report
    and throws what [handleNonRetryableError] makes of the last error. *)
Lemma attempt_always_fails : forall retriesLeft baseDelay threshold b st,
  clockNotBefore svc (startTime (report b)) ->
  0 <= attempts (report b) ->
  wp (RetryService.attempt host svc fn options retriesLeft baseDelay None
        threshold b)
     (fun c st' =>
        exists thrown last rep,
          List.length thrown = S retriesLeft /\
          lastOf thrown = Some last /\
          Forall (fun v => exists e, fst (fn e) = Throw v) thrown /\
          c = Throw (exhaustedWith options last) /\
          calls (journal st') = calls (journal st) ++ map Throw thrown /\
          waits (journal st') =
            waits (journal st)
              ++ awaited (delaysFrom options baseDelay retriesLeft) /\
          finals (journal st') = finals (journal st) ++ [rep] /\
          completions (journal st') =
            completions (journal st)
              ++ match RetryOptions.onComplete options with
                 | Some _ => [rep]
                 | None => []
                 end /\
          attempts rep = attempts (report b) + Z.of_nat (S retriesLeft) /\
          errors rep = errors (report b) ++ map (toErrorObj host) thrown /\
          delays rep =
            delays (report b) ++ delaysFrom options baseDelay retriesLeft /\
          retryingOperationSucceeded rep = false /\
          timedOut rep = timedOut (report b))
     st.
Proof.
  induction retriesLeft as [|r IH]; intros baseDelay threshold b st Hclock Hatt;
    cbn [RetryService.attempt]; unfold RetryService.attemptBody;
    cbn [RetryService.isTimedOut];
    (wp_step; wp_step; wp_step; wp_step;
     apply wp_logger_debug_quiet; [assumption|]; intros e1; wp_simpl;
     wp_step; wp_step;
     match goal with
     | |- context [fst (fn ?e)] =>
         destruct (fn_fails e) as [v Hv]; rewrite Hv
     end; wp_simpl;
     unfold RetryService.handleError;
     wp_step; apply wp_logger_debug_quiet; [assumption|]; intros e3;
     wp_simpl;
     fold (judgedRetryable options v); rewrite all_retryable).
  - (* no retries left *)
    cbn [negb orb Z.of_nat Z.leb Z.compare].
    apply handleNonRetryableError_spec; try assumption; [cbn; lia|].
    intros t e5 Ht. cbn [Z.of_nat Z.leb Z.compare andb journal].
    exists [v], v. eexists. journal_simpl.
    repeat split; try reflexivity.
    all: cbn; rewrite ?app_nil_r; try reflexivity.
    constructor; [now exists e1 | constructor].
  - (* a retry, then the rest *)
    replace (Z.of_nat (S r) <=? 0) with false
      by (symmetry; apply Z.leb_gt; lia).
    cbn [negb orb]. unfold RetryService.retryAfterError.
    wp_step. apply wp_logger_debug_quiet; [assumption|]. intros e4. wp_simpl.
    wp_step.
    set (cd := RetryService.calculateDelay options (S r) baseDelay).
    assert (Hrest : forall st2,
      calls (journal st2) = calls (journal st) ++ [Throw v] ->
      waits (journal st2) = waits (journal st) ++ awaited [cd] ->
      finals (journal st2) = finals (journal st) ->
      completions (journal st2) = completions (journal st) ->
      wp (RetryService.attempt host svc fn options r baseDelay None
            threshold
            (withDelay cd
               (withRetryReason host ReasonError v
                  (RetryService.sanitizeEnabled options) threshold
                  (withError host v (withAttempt b)))))
         (fun c st' =>
            exists thrown last rep,
              List.length thrown = S (S r) /\
              lastOf thrown = Some last /\
              Forall (fun v => exists e, fst (fn e) = Throw v) thrown /\
              c = Throw (exhaustedWith options last) /\
              calls (journal st') = calls (journal st) ++ map Throw thrown /\
              waits (journal st') =
                waits (journal st)
                  ++ awaited (delaysFrom options baseDelay (S r)) /\
              finals (journal st') = finals (journal st) ++ [rep] /\
              completions (journal st') =
                completions (journal st)
                  ++ match RetryOptions.onComplete options with
                     | Some _ => [rep]
                     | None => []
                     end /\
              attempts rep = attempts (report b) + Z.of_nat (S (S r)) /\
              errors rep =
                errors (report b) ++ map (toErrorObj host) thrown /\
              delays rep =
                delays (report b) ++ delaysFrom options baseDelay (S r) /\
              retryingOperationSucceeded rep = false /\
              timedOut rep = timedOut (report b)) st2).
    { intros st2 Hc Hw Hf Hcm.
      eapply wp_conseq; [apply IH; [exact Hclock | cbn; lia]|].
      intros c st' (thrown & last & rep & Hlen & Hlast & Hall & -> & Hc'
                      & Hw' & Hf' & Hcm' & Ha & He & Hd & Hs & Ht).
      exists (v :: thrown), last, rep.
      rewrite Hc', Hw', Hf', Hcm', Hc, Hw, Hf, Hcm, Ha, He, Hd.
      cbn [delaysFrom]. fold cd.
      repeat split; try assumption.
      - cbn. now rewrite Hlen.
      - destruct thrown; [discriminate | exact Hlast].
      - constructor; [now exists e1 | exact Hall].
      - now rewrite <- app_assoc.
      - rewrite <- app_assoc. f_equal. unfold awaited. cbn [filter].
        destruct (negb (cd =? 0)); reflexivity.
      - cbn. lia.
      - cbn. now rewrite <- app_assoc.
      - cbn. now rewrite <- app_assoc. }
    destruct (cd =? 0) eqn:Hcd; wp_step; apply Hrest; cbn;
      unfold awaited; cbn [filter]; rewrite ?Hcd; cbn;
      now rewrite ?app_nil_r.
Qed.

End AlwaysFails.

(* ================================================================== *)
(** ** From [wp] to runs, and the set-up done by [retry] *)
(* ================================================================== *)

Lemma wp_run : forall E A (m : M E A) Q (st : State E),
  wp m Q st -> exists c st', m st = (c, st') /\ Q c st'.
Proof.
  intros E A m Q st H. exists (fst (m st)), (snd (m st)).
  split; [apply surjective_pairing | exact H].
Qed.

Section RetrySetup.

Context {E : Type}.
Variable host : Host.
Variable svc : RetryService.t E.
Variable fn : E -> Completion JsValue * E.
Variable options : RetryOptions.t E.

Lemma valid_retries : 
  RetryService.validateOptions options = Normal tt ->
  0 <= RetryOptions.retries options.
Proof.
  unfold RetryService.validateOptions.
  destruct (Z.ltb_spec (RetryOptions.retries options) 0);
    [discriminate | auto].
Qed.

Lemma valid_delay : forall d,
  RetryService.validateOptions options = Normal tt ->
  RetryOptions.delay options = Some d -> 0 <= d.
Proof.
  unfold RetryService.validateOptions. intros d H Hd. rewrite Hd in H.
  destruct (RetryOptions.retries options <? 0); [discriminate|].
  destruct (Z.ltb_spec d 0); [discriminate | assumption].
Qed.

Lemma valid_timeout : forall t,
  RetryService.validateOptions options = Normal tt ->
  RetryOptions.timeout options = Some t -> 0 < t.
Proof.
  unfold RetryService.validateOptions. intros t H Ht. rewrite Ht in H.
  destruct (RetryOptions.retries options <? 0); [discriminate|].
  destruct (match RetryOptions.delay options with
            | Some d => d <? 0
            | None => false
            end); [discriminate|].
  destruct (Z.leb_spec t 0); [discriminate | assumption].
Qed.

(** Without a timeout [retry] reads the clock once, for [startTime]. *)
Lemma retry_without_timeout : forall Q st,
  RetryService.validateOptions options = Normal tt ->
  RetryOptions.timeout options = None ->
  (forall e',
      wp (RetryService.attempt host svc fn options
            (Z.to_nat (Z.max 0 (RetryOptions.retries options)))
            (Z.max 0 (match RetryOptions.delay options with
                      | Some d => d
                      | None => 0
                      end))
            None
            (match RetryOptions.sanitizationThreshold options with
             | Some t => t
             | None => 500
             end)
            (RetryReportBuilder.new
               (fst (now (RetryService.timer svc) (env st)))))
         Q {| env := e'; journal := journal st |}) ->
  wp (RetryService.retry host svc fn options) Q st.
Proof.
  intros Q st Hvalid Hto H. unfold RetryService.retry.
  rewrite Hvalid, Hto.
  wp_step. wp_step. wp_step. wp_step. wp_step. wp_step. apply H.
Qed.

Lemma delaysFrom_linear : forall d n,
  RetryOptions.retries options = Z.of_nat n ->
  RetryOptions.exponentialBackoff options = Some true ->
  forall r, (r <= n)%nat ->
    delaysFrom options d r =
    map (fun k => Z.of_nat k * d) (seq (n - r + 1) r).
Proof.
  intros d n Hn Hexp. induction r as [|r IH]; intros Hr; [reflexivity|].
  cbn [delaysFrom seq map]. unfold RetryService.calculateDelay.
  rewrite Hexp, Hn, IH by lia.
  f_equal.
  - rewrite Z.mul_comm. f_equal. lia.
  - f_equal. f_equal. lia.
Qed.

Lemma delaysFrom_constant : forall d,
  RetryOptions.exponentialBackoff options <> Some true ->
  forall r, delaysFrom options d r = repeat d r.
Proof.
  intros d Hexp. induction r as [|r IH]; [reflexivity|].
  cbn [delaysFrom repeat]. rewrite IH. f_equal.
  unfold RetryService.calculateDelay.
  destruct (RetryOptions.exponentialBackoff options) as [[|]|];
    congruence.
Qed.

End RetrySetup.

(* ================================================================== *)
(** ** Errors judged non-retryable *)
(* ================================================================== *)

Section NonRetryable.

Context {E : Type}.
Variable host : Host.
Variable svc : RetryService.t E.
Variable fn : E -> Completion JsValue * E.
Variable options : RetryOptions.t E.
Variable t0 : Z.

Import RetryReportBuilder.

Hypothesis logger_quiet : quietLogger svc.
Hypothesis clock : clockNotBefore svc t0.

Local Abbreviation Post :=
  (fun (c : Completion JsValue) (st' : State E) =>
     surfaces options c (journal st')).

Lemma clean_surfaces : forall c j, cleanCalls options j -> surfaces options c j.
Proof.
  intros c j Hclean v Hin Hv. rewrite (Hclean v Hin) in Hv. discriminate.
Qed.

Lemma surfaces_retryable_clean : forall v j,
  judgedRetryable options v = true ->
  surfaces options (Throw v) j -> cleanCalls options j.
Proof.
  intros v j Hv Hs w Hin.
  destruct (judgedRetryable options w) eqn:Hw; [reflexivity|].
  specialize (Hs w Hin Hw). injection Hs as ->. congruence.
Qed.

Lemma clean_addCall_normal : forall a j,
  cleanCalls options j -> cleanCalls options (addCall (Normal a) j).
Proof.
  intros a j Hclean v Hin. cbn in Hin. apply in_app_or in Hin.
  destruct Hin as [Hin | [Hin | []]]; [now apply Hclean | discriminate].
Qed.

Lemma surfaces_addCall_throw : forall v j,
  cleanCalls options j -> surfaces options (Throw v) (addCall (Throw v) j).
Proof.
  intros v j Hclean w Hin Hw. cbn in Hin. apply in_app_or in Hin.
  destruct Hin as [Hin | [Hin | []]].
  - rewrite (Hclean w Hin) in Hw. discriminate.
  - injection Hin as ->. reflexivity.
Qed.

Section Step.

Variable attemptNext : RetryService.Attempt (E := E).
Variable retriesLeft : nat.
Hypothesis next_surfaces :
  retriesLeft <> O ->
  forall delay timeout threshold b st,
    startTime (report b) = t0 -> 0 <= attempts (report b) ->
    cleanCalls options (journal st) ->
    wp (attemptNext delay timeout threshold b) Post st.

Lemma retry_step_surfaces : forall ty v cd delay timeout threshold b message
  st,
  retriesLeft <> O ->
  startTime (report b) = t0 -> 0 <= attempts (report b) ->
  cleanCalls options (journal st) ->
  wp (RetryService.logger_debug svc message ;;
      (if cd =? 0 then ret tt else RetryService.timer_delay svc cd) ;;
      attemptNext delay timeout threshold
        (withDelay cd
           (withRetryReason host ty v (RetryService.sanitizeEnabled options)
              threshold b))) Post st.
Proof.
  intros ty v cd delay timeout threshold b message st Hr Hb Ha Hclean.
  wp_step. apply wp_logger_debug_quiet; [assumption|]. intros e1. wp_simpl.
  wp_step.
  destruct (cd =? 0); wp_step;
    (apply next_surfaces; [exact Hr | exact Hb | exact Ha | exact Hclean]).
Qed.

Lemma handleError_surfaces : forall error delay timeout threshold b st,
  startTime (report b) = t0 -> 0 <= attempts (report b) ->
  surfaces options (Throw error) (journal st) ->
  wp (RetryService.handleError host svc options attemptNext error retriesLeft
        delay timeout threshold b) Post st.
Proof.
  intros error delay timeout threshold b st Hb Ha Hs.
  unfold RetryService.handleError.
  wp_step. apply wp_logger_debug_quiet; [assumption|]. intros e1. wp_simpl.
  fold (judgedRetryable options error).
  destruct (judgedRetryable options error) eqn:Hj; cbn [negb orb].
  - pose proof (surfaces_retryable_clean Hj Hs) as Hclean.
    destruct (Z.leb_spec (Z.of_nat retriesLeft) 0) as [Hr|Hr].
    + apply handleNonRetryableError_spec; try assumption;
        [cbn; now rewrite Hb|].
      intros t e2 Ht. apply clean_surfaces.
      intros w Hin. apply Hclean. revert Hin. journal_simpl. auto.
    + unfold RetryService.retryAfterError.
      apply retry_step_surfaces; try assumption. lia.
  - apply handleNonRetryableError_spec; try assumption;
      [cbn; now rewrite Hb|].
    intros t e2 Ht. rewrite andb_false_r.
    intros w Hin Hw. apply Hs; [|exact Hw]. revert Hin. journal_simpl. auto.
Qed.

Lemma attemptBody_surfaces : forall delay timeout threshold b st,
  startTime (report b) = t0 -> 0 <= attempts (report b) ->
  cleanCalls options (journal st) ->
  wp (RetryService.attemptBody host svc fn options attemptNext retriesLeft
        delay timeout threshold b) Post st.
Proof.
  intros delay timeout threshold b st Hb Ha Hclean.
  unfold RetryService.attemptBody.
  assert (Hb' : startTime (report (withAttempt b)) = t0) by exact Hb.
  assert (Ha' : 0 <= attempts (report (withAttempt b))) by (cbn; lia).
  wp_step. apply wp_isTimedOut. intros [|] e0; wp_simpl.
  { apply handleTimeout_spec; try assumption; [now rewrite Hb'|].
    intros t e2 Ht. apply clean_surfaces.
    intros w Hin. apply Hclean. revert Hin. journal_simpl. auto. }
  wp_step. wp_step.
  apply wp_logger_debug_quiet; [assumption|]. intros e1. wp_simpl.
  wp_step. wp_step.
  destruct (fst (fn _)) as [result|x].
  2: { apply handleError_surfaces; try assumption.
       now apply surfaces_addCall_throw. }
  pose proof (clean_addCall_normal result Hclean) as Hclean'.
  assert (Hsucc : forall st2, cleanCalls options (journal st2) ->
            wp (RetryService.handleSuccess svc options result (withAttempt b))
               (fun c st3 =>
                  match c with
                  | Normal a => Post (Normal a) st3
                  | Throw v =>
                      wp (RetryService.handleError host svc options
                            attemptNext v retriesLeft delay timeout
                            threshold (withAttempt b)) Post st3
                  end) st2).
  { intros st2 Hst2.
    apply handleSuccess_spec; try assumption; [now rewrite Hb'|].
    intros t e2 Ht. apply clean_surfaces.
    intros w Hin. apply Hst2. revert Hin. journal_simpl. auto. }
  destruct (match RetryOptions.retryOnResult options with
            | Some retryOnResult => retryOnResult result
            | None => false
            end); [|now apply Hsucc].
  destruct (Z.gtb_spec (Z.of_nat retriesLeft) 0) as [Hr|Hr].
  - unfold RetryService.handleRetryableResult.
    eapply wp_conseq.
    + apply (retry_step_surfaces ReasonResult result); try assumption. lia.
    + intros [a|v] st2 Hst2; [exact Hst2|].
      now apply handleError_surfaces.
  - wp_step. apply wp_stringifyInTemplate.
    + intros json. wp_step.
      apply wp_logger_debug_quiet; [assumption|]. intros e2. wp_simpl.
      now apply Hsucc.
    + intros v. apply handleError_surfaces; try assumption.
      now apply clean_surfaces.
Qed.

End Step.

Lemma attempt_surfaces : forall retriesLeft delay timeout threshold b st,
  startTime (report b) = t0 -> 0 <= attempts (report b) ->
  cleanCalls options (journal st) ->
  wp (RetryService.attempt host svc fn options retriesLeft delay timeout
        threshold b) Post st.
Proof.
  induction retriesLeft as [|r IH]; intros delay timeout threshold b st Hb Ha
    Hclean; cbn [RetryService.attempt]; apply attemptBody_surfaces;
    try assumption.
  - intros Hr. now contradiction Hr.
  - intros _. exact IH.
Qed.

End NonRetryable.

(* ================================================================== *)
(** ** Where the hook is called once, and where a retryable result is
       returned *)
(* ================================================================== *)

Section OnceAndReturned.

Context {E : Type}.
Variable host : Host.
Variable svc : RetryService.t E.
Variable fn : E -> Completion JsValue * E.
Variable options : RetryOptions.t E.

Import RetryReportBuilder.

Hypothesis logger_quiet : quietLogger svc.

(** Without [retryOnResult] no recursive call is awaited inside a [try]
    block, and every iteration chain ends in exactly one of the three
    terminal handlers: one report is built and the hook, when there is
    one, is called once. *)
Lemma attempt_finalizes_once :
  RetryOptions.retryOnResult options = None ->
  forall retriesLeft delay timeout threshold b st,
    clockNotBefore svc (startTime (report b)) ->
    0 <= attempts (report b) ->
    wp (RetryService.attempt host svc fn options retriesLeft delay timeout
          threshold b)
       (fun c st' =>
          exists rep,
            finals (journal st') = finals (journal st) ++ [rep] /\
            completions (journal st') =
              completions (journal st)
                ++ match RetryOptions.onComplete options with
                   | Some _ => [rep]
                   | None => []
                   end)
       st.
Proof.
  intros Hror.
  induction retriesLeft as [|r IH]; intros delay timeout threshold b st Hclock
    Hatt; cbn [RetryService.attempt]; unfold RetryService.attemptBody;
    rewrite Hror;
    (wp_step; apply wp_isTimedOut; intros [|] e0; wp_simpl;
     [ apply handleTimeout_spec; try assumption; [cbn; lia|];
       intros t e2 Ht; journal_simpl; eexists; split; reflexivity
     | ]);
    (wp_step; wp_step;
     apply wp_logger_debug_quiet; [assumption|]; intros e1; wp_simpl;
     wp_step; wp_step;
     destruct (fst (fn _)) as [result|x];
     [ apply handleSuccess_spec; try assumption; [cbn; lia|];
       intros t e2 Ht; journal_simpl; eexists; split; reflexivity
     | ]);
    unfold RetryService.handleError;
    (wp_step; apply wp_logger_debug_quiet; [assumption|]; intros e2;
     wp_simpl).
  - cbn [Z.of_nat Z.leb Z.compare]. rewrite orb_true_r.
    apply handleNonRetryableError_spec; try assumption; [cbn; lia|].
    intros t e3 Ht. journal_simpl. eexists. split; reflexivity.
  - destruct (_ || _).
    + apply handleNonRetryableError_spec; try assumption; [cbn; lia|].
      intros t e3 Ht. journal_simpl. eexists. split; reflexivity.
    + unfold RetryService.retryAfterError.
      wp_step. apply wp_logger_debug_quiet; [assumption|]. intros e3.
      wp_simpl. wp_step.
      destruct (_ =? 0); wp_step;
        (eapply wp_conseq; [apply IH; [exact Hclock | cbn; lia]|];
         intros c st' [rep [Hf Hc]]; exists rep;
         revert Hf Hc; journal_simpl; auto).
Qed.

(** With no retries left, a result that [retryOnResult] flags and
    [JSON.stringify] accepts is returned as it is, in a report marked
    successful that has no retry reason more than the builder had. *)
Lemma retryable_result_returned :
  forall retryOnResult v delay threshold b st,
    RetryOptions.retryOnResult options = Some retryOnResult ->
    retryOnResult v = true ->
    (forall e, fst (fn e) = Normal v) ->
    (forall thrown, JSON_stringify host v <> JsonThrows thrown) ->
    clockNotBefore svc (startTime (report b)) ->
    0 <= attempts (report b) ->
    wp (RetryService.attempt host svc fn options 0 delay None threshold b)
       (fun c st' =>
          exists rep,
            c = Normal v /\
            calls (journal st') = calls (journal st) ++ [Normal v] /\
            finals (journal st') = finals (journal st) ++ [rep] /\
            retryingOperationSucceeded rep = true /\
            retryReasons rep = retryReasons (report b) /\
            delays rep = delays (report b))
       st.
Proof.
  intros retryOnResult v delay threshold b st Hror Hv Hfn Hjson Hclock Hatt.
  cbn [RetryService.attempt]. unfold RetryService.attemptBody.
  cbn [RetryService.isTimedOut]. rewrite Hror.
  wp_step. wp_step. wp_step. wp_step.
  apply wp_logger_debug_quiet; [assumption|]. intros e1. wp_simpl.
  wp_step. wp_step. rewrite Hfn, Hv. wp_simpl.
  cbn [Z.of_nat Z.gtb Z.compare].
  assert (Hsucc : forall st2,
    calls (journal st2) = calls (journal st) ++ [Normal v] ->
    finals (journal st2) = finals (journal st) ->
    wp (RetryService.handleSuccess svc options v (withAttempt b))
       (fun c st3 =>
          match c with
          | Normal a =>
              exists rep,
                Normal a = Normal v /\
                calls (journal st3) = calls (journal st) ++ [Normal v] /\
                finals (journal st3) = finals (journal st) ++ [rep] /\
                retryingOperationSucceeded rep = true /\
                retryReasons rep = retryReasons (report b) /\
                delays rep = delays (report b)
          | Throw x =>
              wp (RetryService.handleError host svc options
                    (fun _ _ _ _ => ret JsUndefined) x 0 delay None
                    threshold (withAttempt b))
                 (fun c st4 =>
                    exists rep,
                      c = Normal v /\
                      calls (journal st4) = calls (journal st) ++ [Normal v] /\
                      finals (journal st4) = finals (journal st) ++ [rep] /\
                      retryingOperationSucceeded rep = true /\
                      retryReasons rep = retryReasons (report b) /\
                      delays rep = delays (report b)) st3
          end) st2).
  { intros st2 Hc Hf.
    apply handleSuccess_spec; try assumption; [cbn; lia|].
    intros t e2 Ht. journal_simpl. rewrite Hc, Hf.
    eexists. repeat split; reflexivity. }
  wp_step. unfold RetryService.stringifyInTemplate.
  destruct (JSON_stringify host v) as [json| |thrown] eqn:Hs;
    [| | now contradiction (Hjson thrown)];
    (wp_step; wp_step;
     apply wp_logger_debug_quiet; [assumption|]; intros e2; wp_simpl;
     apply Hsucc; reflexivity).
Qed.

End OnceAndReturned.

Section ResultRetryStep.

Context {E : Type}.
Variable host : Host.
Variable svc : RetryService.t E.
Variable fn : E -> Completion JsValue * E.
Variable options : RetryOptions.t E.

Import RetryReportBuilder.

Hypothesis logger_quiet : quietLogger svc.

Lemma logger_debug_run : forall message (st : State E),
  RetryService.logger_debug svc message st =
  (Normal tt,
   {| env := snd (LogHandler.debug (RetryService.logger svc) message (env st));
      journal := journal st |}).
Proof.
  intros message st. unfold RetryService.logger_debug, call.
  pose proof (logger_quiet message (env st)) as Hq.
  destruct (LogHandler.debug (RetryService.logger svc) message (env st))
    as [c e']. cbn in Hq. now subst c.
Qed.

(** With retries left, a result that [retryOnResult] flags is recorded
    as a retry reason of type ["result"], then the computed delay is
    recorded, and awaited unless it is [0]; the next iteration runs with
    one retry less, inside the [try] block of this one. *)
Lemma retryable_result_retried :
  forall retryOnResult v retriesLeft delay threshold b st,
    RetryOptions.retryOnResult options = Some retryOnResult ->
    retryOnResult v = true ->
    (forall e, fst (fn e) = Normal v) ->
    let currentDelay :=
      RetryService.calculateDelay options (S retriesLeft) delay in
    exists st2,
      RetryService.attempt host svc fn options (S retriesLeft) delay None
        threshold b st =
      tryCatch
        (RetryService.attempt host svc fn options retriesLeft delay None
           threshold
           (withDelay currentDelay
              (withRetryReason host ReasonResult v
                 (RetryService.sanitizeEnabled options) threshold
                 (withAttempt b))))
        (fun error =>
           RetryService.handleError host svc options
             (RetryService.attempt host svc fn options retriesLeft) error
             (S retriesLeft) delay None threshold (withAttempt b))
        st2 /\
      calls (journal st2) = calls (journal st) ++ [Normal v] /\
      waits (journal st2) = waits (journal st) ++ awaited [currentDelay] /\
      finals (journal st2) = finals (journal st) /\
      completions (journal st2) = completions (journal st).
Proof.
  intros retryOnResult v retriesLeft delay threshold b st Hror Hv Hfn
    currentDelay.
  cbn [RetryService.attempt].
  unfold RetryService.attemptBody, RetryService.isTimedOut,
    RetryService.handleRetryableResult.
  rewrite Hror. fold currentDelay.
  unfold bind at 1. unfold ret at 1. cbv beta iota.
  unfold tryCatch at 1, bind at 1. rewrite logger_debug_run.
  unfold bind at 1, invoke.
  cbn [env journal].
  match goal with
  | |- context [fn ?e] =>
      pose proof (Hfn e) as Hcall; destruct (fn e) as [c e1]
  end.
  cbn [fst] in Hcall. subst c. rewrite Hv.
  replace (Z.of_nat (S retriesLeft) >? 0) with true
    by (symmetry; apply Z.gtb_gt; lia).
  unfold bind at 1. rewrite logger_debug_run. cbn [env journal].
  unfold bind at 1, awaited. cbn [filter].
  destruct (currentDelay =? 0) eqn:Hcd; cbn [negb].
  - unfold ret at 1. eexists. split; [unfold tryCatch; reflexivity|].
    cbn. now rewrite app_nil_r.
  - unfold RetryService.timer_delay. eexists.
    split; [unfold tryCatch; reflexivity|]. cbn. auto.
Qed.

End ResultRetryStep.

(* ================================================================== *)
(** ** The scenarios of the specification, run *)
(* ================================================================== *)

(** [timeout = 100], an operation that takes [60] units of time and
    always fails: two invocations, then the deadline check rejects the
    third attempt. *)
Example scenario_timeout :
  let run :=
    RetryService.retry Fixtures.demoHost (Fixtures.quietService 0)
      (Fixtures.slowFailure 60) Fixtures.timeoutHundred Fixtures.start in
  fst run = Throw (JsError (RetryTimeoutError "Retry timeout exceeded"
                              (Some (MkError "Error" "X" None)))) /\
  List.length (calls (journal (snd run))) = 2%nat /\
  map timedOut (completions (journal (snd run))) = [Some true] /\
  map attempts (completions (journal (snd run))) = [3].
Proof. vm_compute. repeat split; reflexivity. Qed.

(** A result flagged twice, then accepted: three invocations, two retry
    reasons of type ["result"], the delay awaited twice. *)
Example scenario_pending_then_success :
  let run :=
    RetryService.retry Fixtures.demoHost (Fixtures.quietService 0)
      (Fixtures.scripted 0 Fixtures.pendingTwice) Fixtures.retryWhilePending
      Fixtures.start in
  fst run = Normal (JsString "success") /\
  List.length (calls (journal (snd run))) = 3%nat /\
  map (fun r => map reason_type (reasonsOf r)) (completions (journal (snd run)))
    = [[ReasonResult; ReasonResult]] /\
  map retryingOperationSucceeded (completions (journal (snd run))) = [true] /\
  waits (journal (snd run)) = [10; 10].
Proof. vm_compute. repeat split; reflexivity. Qed.

(** [retries = 3, delay = 100, exponentialBackoff = true], an operation
    that always fails: the timer is asked to wait [100], [200], [300]. *)
Example scenario_backoff :
  let run :=
    RetryService.retry Fixtures.demoHost (Fixtures.quietService 0)
      Fixtures.alwaysX Fixtures.backoffThrice Fixtures.start in
  waits (journal (snd run)) = [100; 200; 300] /\
  List.length (calls (journal (snd run))) = 4%nat.
Proof. vm_compute. repeat split; reflexivity. Qed.

(* ================================================================== *)
(** ** The claims *)
(* ================================================================== *)










(** C4, at the failing input.  With [retries: 1], a [retryOnResult] that
    flags ["pending"] and an operation that returns ["pending"] and then
    throws [Error("X")], one call of [retry] invokes [onComplete] twice
    and the operation three times: the rejection of the awaited
    [handleRetryableResult] is caught by the [try] block of the first
    iteration and handled as a failure of that iteration. *)
Theorem onComplete_invoked_twice :
  let run :=
    RetryService.retry Fixtures.demoHost (Fixtures.quietService 1000)
      (Fixtures.scripted 0 Fixtures.pendingThenFails)
      Fixtures.retryOncePending Fixtures.start in
  RetryService.validateOptions Fixtures.retryOncePending = Normal tt /\
  List.length (completions (journal (snd run))) = 2%nat /\
  calls (journal (snd run)) =
    [Normal (JsString "pending"); Throw Fixtures.errorX; Throw Fixtures.errorX]
  /\
  fst run =
    Throw (JsError (RetryAttemptsExceededError
                      "Maximum retry attempts (1) exceeded: X"
                      (Some (MkError "Error" "X" None)))).
Proof. vm_compute. repeat split; reflexivity. Qed.

(** C5.  A policy with [retries < 0], or a [delay] set and negative, or a
    [timeout] set and not positive, or a [sanitizationThreshold] set and
    negative, makes [retry] reject with a [RetryConfigurationError] in
    the state it was called in: the operation was not invoked, the clock
    was not read, no report was built and the hook was not called. *)
Theorem retry_rejects_invalid_policy :
  forall E (host : Host) (svc : RetryService.t E)
    (fn : E -> Completion JsValue * E) (options : RetryOptions.t E)
    (st : State E),
    (RetryOptions.retries options < 0 \/
     (exists d, RetryOptions.delay options = Some d /\ d < 0) \/
     (exists t, RetryOptions.timeout options = Some t /\ t <= 0) \/
     (exists n, RetryOptions.sanitizationThreshold options = Some n /\ n < 0)) ->
    exists message,
      RetryService.retry host svc fn options st =
        (Throw (JsError (RetryConfigurationError message)), st).
Proof.
  intros E host svc fn options st H.
  assert (Hv : exists message,
             RetryService.validateOptions options =
             Throw (JsError (RetryConfigurationError message))).
  { unfold RetryService.validateOptions.
    destruct (Z.ltb_spec (RetryOptions.retries options) 0) as [|Hr];
      [eauto|].
    destruct (match RetryOptions.delay options with
              | Some d => d <? 0
              | None => false
              end) eqn:Hd; [eauto|].
    destruct (match RetryOptions.timeout options with
              | Some t => t <=? 0
              | None => false
              end) eqn:Ht; [eauto|].
    destruct (match RetryOptions.sanitizationThreshold options with
              | Some t => t <? 0
              | None => false
              end) eqn:Hs; [eauto|].
    exfalso. destruct H as [H | [(d & Hd' & H) | [(t & Ht' & H) | (n & Hn' & H)]]].
    - lia.
    - rewrite Hd' in Hd. apply Z.ltb_ge in Hd. lia.
    - rewrite Ht' in Ht. apply Z.leb_gt in Ht. lia.
    - rewrite Hn' in Hs. apply Z.ltb_ge in Hs. lia. }
  destruct Hv as [message Hv]. exists message.
  unfold RetryService.retry, bind, complete. now rewrite Hv.
Qed.

Lemma retry_rejects_invalid_policy_witness :
  RetryOptions.retries Fixtures.negativeRetries < 0 /\
  exists message,
    RetryService.retry Fixtures.demoHost (Fixtures.quietService 1000)
      Fixtures.alwaysX Fixtures.negativeRetries Fixtures.start =
      (Throw (JsError (RetryConfigurationError message)), Fixtures.start).
Proof.
  split; [reflexivity|].
  apply retry_rejects_invalid_policy. left. reflexivity.
Defined.



(** C7, at the failing input.  With [retries: 0], a [retryOnResult] that
    flags every result and an operation that returns a circular object,
    the call does not resolve to the object: [JSON.stringify(result)] in
    the debug message throws inside the [try] block and the call rejects
    with [RetryAttemptsExceededError].  A result [JSON.stringify] accepts
    is returned as it is. *)
Theorem retryable_result_without_retries_left :
  RetryService.validateOptions Fixtures.noRetriesAnyResult = Normal tt /\
  fst (RetryService.retry Fixtures.demoHost (Fixtures.quietService 1000)
         Fixtures.returnsCircular Fixtures.noRetriesAnyResult Fixtures.start)
  = Throw (JsError (RetryAttemptsExceededError
                      "Maximum retry attempts (0) exceeded: Converting circular structure to JSON"
                      (Some (MkError "TypeError"
                               "Converting circular structure to JSON" None))))
  /\
  fst (RetryService.retry Fixtures.demoHost (Fixtures.quietService 1000)
         Fixtures.returnsArray Fixtures.noRetriesAnyResult Fixtures.start)
  = Normal Fixtures.smallArray.
Proof. vm_compute. repeat split; reflexivity. Qed.

(** C8 (amended).  [sanitizeForLogging] returns the value itself when
    sanitization is off, or the value is [null], [undefined] or not an
    object; otherwise, when [JSON.stringify] gives a text no longer than
    the threshold, the value itself (not the text); when the text is
    longer, the string ["[Large <TypeName>: <N> chars]"], square brackets
    included, with the constructor's name (["Object"] when there is none
    or it is empty) and the length of the text; and when
    [JSON.stringify] throws or gives [undefined], the string
    ["[Unstringifiable Object]"], square brackets included. *)
Theorem sanitizeForLogging_cases :
  forall (h : Host) (value : JsValue) (enabled : bool) (threshold : Z),
    let sanitized :=
      RetryReportBuilder.sanitizeForLogging h value enabled threshold in
    let typeName :=
      match constructor_name h value with
      | Some n => if String.eqb n "" then "Object" else n
      | None => "Object"
      end in
    (enabled = false \/ looselyNull value = true \/ typeofObject value = false ->
     sanitized = value) /\
    (enabled = true -> looselyNull value = false ->
     typeofObject value = true ->
     match JSON_stringify h value with
     | JsonText json =>
         (Z.of_nat (String.length json) <= threshold -> sanitized = value) /\
         (threshold < Z.of_nat (String.length json) ->
          sanitized =
            JsString ("[Large " ++ typeName ++ ": "
                        ++ showNat (String.length json) ++ " chars]")%string)
     | JsonUndefined => sanitized = JsString "[Unstringifiable Object]"
     | JsonThrows _ => sanitized = JsString "[Unstringifiable Object]"
     end).
Proof.
  intros h value enabled threshold sanitized typeName.
  subst sanitized. unfold RetryReportBuilder.sanitizeForLogging. split.
  - intros [-> | [-> | ->]]; cbn; [reflexivity | |].
    + now rewrite orb_true_r.
    + now rewrite orb_true_r.
  - intros -> -> ->. cbn [negb orb].
    destruct (JSON_stringify h value) as [json| |v]; try reflexivity.
    split; intros Hlen.
    + destruct (Z.leb_spec (Z.of_nat (String.length json)) threshold);
        [reflexivity | lia].
    + destruct (Z.leb_spec (Z.of_nat (String.length json)) threshold);
        [lia|].
      fold typeName. rewrite !concat_empty_sep. cbn [String.concat].
      reflexivity.
Qed.

Lemma sanitizeForLogging_cases_witness :
  3 < Z.of_nat (String.length "[1,2,3]") /\
  RetryReportBuilder.sanitizeForLogging Fixtures.demoHost Fixtures.smallArray
    true 3 = JsString "[Large Array: 7 chars]".
Proof.
  split; [reflexivity|].
  exact (proj2 (proj2 (sanitizeForLogging_cases Fixtures.demoHost
                         Fixtures.smallArray true 3)
                  eq_refl eq_refl eq_refl) eq_refl).
Defined.

(** The claim's placeholders lack the square brackets the code writes. *)
Lemma sanitizeForLogging_cases_counterexample :
  JSON_stringify Fixtures.demoHost Fixtures.circular =
    JsonThrows (JsError (MkError "TypeError"
                           "Converting circular structure to JSON" None)) /\
  RetryReportBuilder.sanitizeForLogging Fixtures.demoHost Fixtures.circular
    true 500 <> JsString "Unstringifiable Object" /\
  RetryReportBuilder.sanitizeForLogging Fixtures.demoHost Fixtures.smallArray
    true 3 <> JsString "Large Array: 7 chars".
Proof. repeat split; discriminate. Qed.

(** C9 (amended).  When the logger of the service is a [Logger] over a
    handler, what the handler's methods throw never leaves the engine:
    for every operation, policy, timer and handler, the call ends with
    the same completion and in the same state, so with the same reports
    handed to [onComplete], as with the handler that acts the same way
    and returns normally; and no method of the [Logger] throws. *)
Theorem logger_failures_are_swallowed :
  forall E (host : Host) (tm : Timer E) (handler : LogHandler.t E)
    (level : LogLevel) (fn : E -> Completion JsValue * E)
    (options : RetryOptions.t E) (st : State E),
    let viaLogger h :=
      {| RetryService.logger :=
           Logger.asLogHandler
             {| Logger.currentLevel := level; Logger.logHandler := h |};
         RetryService.timer := tm |} in
    RetryService.retry host (viaLogger handler) fn options st =
    RetryService.retry host (viaLogger (Fixtures.silenced handler)) fn options
      st /\
    (forall method message e,
        fst (LogHandler.method
               (RetryService.logger (viaLogger handler)) method message e)
        = Normal tt).
Proof.
  intros E host tm handler level fn options st viaLogger.
  assert (Htry : forall m,
    Logger.tryLog {| Logger.currentLevel := level;
                     Logger.logHandler := handler |} m =
    Logger.tryLog {| Logger.currentLevel := level;
                     Logger.logHandler := Fixtures.silenced handler |} m).
  { intros m. extensionality message. extensionality e.
    unfold Logger.tryLog. cbn [Logger.logHandler].
    destruct m; cbn [LogHandler.method Fixtures.silenced LogHandler.trace
                     LogHandler.debug LogHandler.log LogHandler.info
                     LogHandler.warn LogHandler.error];
      match goal with
      | |- context [?f handler message e] =>
          destruct (f handler message e) as [[[]|v] e']
      end; reflexivity. }
  split.
  - subst viaLogger. cbv beta. f_equal. f_equal.
    unfold Logger.asLogHandler, Logger.trace, Logger.debug, Logger.log,
      Logger.info, Logger.warn, Logger.error.
    now rewrite !Htry.
  - intros method message e. subst viaLogger.
    cbn [RetryService.logger].
    destruct method;
      cbn [LogHandler.method Logger.asLogHandler LogHandler.trace
           LogHandler.debug LogHandler.log LogHandler.info LogHandler.warn
           LogHandler.error];
      unfold Logger.trace, Logger.debug, Logger.log, Logger.info, Logger.warn,
        Logger.error, Logger.tryLog;
      destruct (Logger.isLoggable _ _); try reflexivity;
      match goal with
      | |- context [LogHandler.method ?h ?m message e] =>
          destruct (LogHandler.method h m message e) as [[[]|v] e']
      end; reflexivity.
Qed.

(** The claim without the amendment fails: handed a handler whose
    methods throw, the service rejects with the handler's error a call
    that resolves when the handler is silent. *)
Lemma logger_failures_are_swallowed_counterexample :
  fst (RetryService.retry Fixtures.demoHost Fixtures.failingService
         Fixtures.returnsOk Fixtures.retryTwice Fixtures.start)
  = Throw Fixtures.sinkFailure /\
  fst (RetryService.retry Fixtures.demoHost Fixtures.silencedService
         Fixtures.returnsOk Fixtures.retryTwice Fixtures.start)
  = Normal (JsString "ok") /\
  fst (RetryService.retry Fixtures.demoHost Fixtures.failingService
         Fixtures.returnsOk Fixtures.retryTwice Fixtures.start)
  <> fst (RetryService.retry Fixtures.demoHost Fixtures.silencedService
            Fixtures.returnsOk Fixtures.retryTwice Fixtures.start).
Proof. vm_compute. repeat split; discriminate. Qed.



(* ================================================================== *)
(** ** Further properties: payloads *)
(* ================================================================== *)

(** X1.  A value is a [DataErrorPayload] exactly when it is an Ok payload
    or an Err payload, and it is never both. *)
Theorem payload_guards_partition :
  forall v : DataErrorPayloadUtil.Value,
    DataErrorPayloadUtil.isDataErrorPayload v =
      DataErrorPayloadUtil.isOk v || DataErrorPayloadUtil.isErr v /\
    DataErrorPayloadUtil.isOk v && DataErrorPayloadUtil.isErr v = false.
Proof.
  intros v.
  unfold DataErrorPayloadUtil.isDataErrorPayload, DataErrorPayloadUtil.isOk,
    DataErrorPayloadUtil.isErr.
  destruct (negb (DataErrorPayloadUtil.isNull v)
            && DataErrorPayloadUtil.isObjectType v
            && DataErrorPayloadUtil.has "data" v
            && DataErrorPayloadUtil.has "error" v);
    [|split; reflexivity].
  destruct (DataErrorPayloadUtil.propertyIsNull v "data"),
    (DataErrorPayloadUtil.propertyIsNull v "error"); split; reflexivity.
Qed.

(** X2.  [create] makes an Ok payload of any data, [null] and
    [undefined] included, and [extractOkPayload] gives the data back;
    [createErr] makes a payload [extractErrorPayload] gives the error
    back from, which is an Err payload unless the error is [null]: then
    it is an Ok payload. *)
Theorem payload_constructors_round_trip :
  forall d : DataErrorPayloadUtil.Value,
    (DataErrorPayloadUtil.isOk (DataErrorPayloadUtil.create d) = true /\
     DataErrorPayloadUtil.isErr (DataErrorPayloadUtil.create d) = false /\
     DataErrorPayloadUtil.extractOkPayload (DataErrorPayloadUtil.create d)
       = Some d) /\
    (DataErrorPayloadUtil.extractErrorPayload
       (DataErrorPayloadUtil.createErr d) = Some d /\
     DataErrorPayloadUtil.extractOkPayload
       (DataErrorPayloadUtil.createErr d) = Some DataErrorPayloadUtil.PNull /\
     DataErrorPayloadUtil.isErr (DataErrorPayloadUtil.createErr d)
       = negb (DataErrorPayloadUtil.isNull d) /\
     DataErrorPayloadUtil.isOk (DataErrorPayloadUtil.createErr d)
       = DataErrorPayloadUtil.isNull d /\
     DataErrorPayloadUtil.isDataErrorPayload
       (DataErrorPayloadUtil.createErr d) = true).
Proof.
  intros d. repeat split; try reflexivity; destruct d; reflexivity.
Qed.

(* ================================================================== *)
(** ** Further properties: validation and sanitization *)
(* ================================================================== *)

(** X3.  [validateOptions] accepts exactly the policies with
    [retries >= 0], a [delay] absent or [>= 0], a [timeout] absent or
    [> 0] and a [sanitizationThreshold] absent or [>= 0]; of several
    violations it reports the first in that order. *)
Theorem validateOptions_accepts_exactly :
  forall E (options : RetryOptions.t E),
    let negative (field : option Z) :=
      match field with Some x => x <? 0 | None => false end in
    (RetryService.validateOptions options = Normal tt <->
     0 <= RetryOptions.retries options /\
     (forall d, RetryOptions.delay options = Some d -> 0 <= d) /\
     (forall t, RetryOptions.timeout options = Some t -> 0 < t) /\
     (forall n, RetryOptions.sanitizationThreshold options = Some n ->
                0 <= n)) /\
    (RetryOptions.retries options < 0 ->
     RetryService.validateOptions options =
     Throw (JsError (RetryConfigurationError "Negative retries"))) /\
    (0 <= RetryOptions.retries options ->
     negative (RetryOptions.delay options) = true ->
     RetryService.validateOptions options =
     Throw (JsError (RetryConfigurationError "Delay cannot be negative"))) /\
    (0 <= RetryOptions.retries options ->
     negative (RetryOptions.delay options) = false ->
     (exists t, RetryOptions.timeout options = Some t /\ t <= 0) ->
     RetryService.validateOptions options =
     Throw (JsError (RetryConfigurationError
                       "Timeout must be greater than zero"))).
Proof.
  intros E options negative. subst negative.
  unfold RetryService.validateOptions.
  destruct (RetryOptions.delay options) as [d|];
    destruct (RetryOptions.timeout options) as [t|];
    destruct (RetryOptions.sanitizationThreshold options) as [n|];
    destruct (Z.ltb_spec (RetryOptions.retries options) 0);
    try destruct (Z.ltb_spec d 0);
    try destruct (Z.leb_spec t 0);
    try destruct (Z.ltb_spec n 0);
    repeat split; intros;
    repeat match goal with
           | H : _ /\ _ |- _ => destruct H
           | H : exists _, _ |- _ => destruct H
           | H : Some _ = Some _ |- _ => injection H as <-
           | H : forall x, Some ?a = Some x -> _ |- _ =>
               specialize (H a eq_refl)
           end;
    try reflexivity; try discriminate; try lia.
Qed.

Lemma validateOptions_accepts_exactly_witness :
  RetryService.validateOptions Fixtures.retryTwice = Normal tt /\
  (RetryOptions.retries Fixtures.negativeRetries < 0 /\
   RetryService.validateOptions Fixtures.negativeRetries =
   Throw (JsError (RetryConfigurationError "Negative retries"))).
Proof.
  split; [|split; [reflexivity|]].
  - apply (proj1 (validateOptions_accepts_exactly Fixtures.retryTwice)).
    cbn. repeat split; try lia; intros ? [= <-]; lia.
  - apply (proj1 (proj2 (validateOptions_accepts_exactly
                           Fixtures.negativeRetries))).
    reflexivity.
Defined.

(** X4.  [_validateRetryReport] returns the report it was given exactly
    when [totalTime] and [attempts] are both non-negative, whatever the
    other fields hold; otherwise it throws a
    [RetryReportValidationError], about [totalTime] when both are
    negative. *)
Theorem validateRetryReport_accepts_exactly :
  forall report : RetryReport,
    (RetryService._validateRetryReport report = Normal report <->
     0 <= totalTime report /\ 0 <= attempts report) /\
    (totalTime report < 0 ->
     RetryService._validateRetryReport report =
     Throw (JsError (RetryReportValidationError
                       "Invalid report: totalTime cannot be negative"))) /\
    (0 <= totalTime report -> attempts report < 0 ->
     RetryService._validateRetryReport report =
     Throw (JsError (RetryReportValidationError
                       "Invalid report: attempts cannot be negative"))).
Proof.
  intros report.
  unfold RetryService._validateRetryReport, RetryReportBuilder.build.
  cbn [RetryReportBuilder.report].
  destruct (Z.ltb_spec (totalTime report) 0);
    destruct (Z.ltb_spec (attempts report) 0);
    repeat split; intros;
    repeat match goal with H : _ /\ _ |- _ => destruct H end;
    try reflexivity; try discriminate; try lia.
Qed.

Lemma validateRetryReport_accepts_exactly_witness :
  let fresh := RetryReportBuilder.report (RetryReportBuilder.new 1000) in
  let early :=
    RetryReportBuilder.report
      (RetryReportBuilder.withFailure 999 (RetryReportBuilder.new 1000)) in
  RetryService._validateRetryReport fresh = Normal fresh /\
  (totalTime early < 0 /\
   RetryService._validateRetryReport early =
   Throw (JsError (RetryReportValidationError
                     "Invalid report: totalTime cannot be negative"))).
Proof.
  intros fresh early. split; [|split; [reflexivity|]].
  - apply (proj1 (validateRetryReport_accepts_exactly fresh)).
    cbn. lia.
  - apply (proj1 (proj2 (validateRetryReport_accepts_exactly early))).
    reflexivity.
Defined.

(** X5.  A sanitized value is the value itself or a string; when
    sanitization is on, a sanitized value that is a non-null object has
    a JSON text no longer than the threshold; and sanitizing twice gives
    what sanitizing once gives. *)
Theorem sanitizeForLogging_bounds_and_settles :
  forall (h : Host) (value : JsValue) (enabled : bool) (threshold : Z),
    let sanitized :=
      RetryReportBuilder.sanitizeForLogging h value enabled threshold in
    (sanitized = value \/ exists text, sanitized = JsString text) /\
    (enabled = true -> typeofObject sanitized = true ->
     looselyNull sanitized = false ->
     exists json,
       JSON_stringify h sanitized = JsonText json /\
       Z.of_nat (String.length json) <= threshold) /\
    RetryReportBuilder.sanitizeForLogging h sanitized enabled threshold
      = sanitized.
Proof.
  intros h value enabled threshold sanitized. subst sanitized.
  unfold RetryReportBuilder.sanitizeForLogging.
  destruct enabled; cbn [negb orb];
    [|repeat split; intros; try reflexivity; try discriminate; now left].
  destruct (looselyNull value) eqn:Hnull; cbn [orb];
    [rewrite Hnull; repeat split; intros; try reflexivity; try congruence;
     now left|].
  destruct (typeofObject value) eqn:Hobj; cbn [negb];
    [|rewrite Hnull, Hobj; repeat split; intros; try reflexivity;
      try congruence; now left].
  destruct (JSON_stringify h value) as [json| |thrown] eqn:Hjson;
    try (repeat split; intros; try reflexivity; try discriminate;
         right; eexists; reflexivity).
  destruct (Z.leb_spec (Z.of_nat (String.length json)) threshold) as [Hle|Hgt];
    [|repeat split; intros; try reflexivity; try discriminate;
      right; eexists; reflexivity].
  rewrite Hnull, Hobj, Hjson. cbn [negb orb].
  destruct (Z.leb_spec (Z.of_nat (String.length json)) threshold); [|lia].
  repeat split; intros; try reflexivity; [now left|].
  exists json. now split.
Qed.

Lemma sanitizeForLogging_bounds_and_settles_witness :
  typeofObject
    (RetryReportBuilder.sanitizeForLogging Fixtures.demoHost
       Fixtures.smallArray true 100) = true /\
  exists json,
    JSON_stringify Fixtures.demoHost
      (RetryReportBuilder.sanitizeForLogging Fixtures.demoHost
         Fixtures.smallArray true 100) = JsonText json /\
    Z.of_nat (String.length json) <= 100.
Proof.
  split; [reflexivity|].
  apply (proj1 (proj2 (sanitizeForLogging_bounds_and_settles
                         Fixtures.demoHost Fixtures.smallArray true 100)));
    reflexivity.
Defined.

(* ================================================================== *)
(** ** Further properties: the logger *)
(* ================================================================== *)

(** X6.  A method of a [Logger] never throws.  It calls the handler's
    method of the same name, once and with the message it was given,
    exactly when the priority of the method's level is at least the
    priority of the logger's level, and it does nothing otherwise; so
    [error] is always forwarded and a logger at level ["trace"] forwards
    everything. *)
Theorem logger_forwards_by_priority :
  forall E (this : Logger.t E) (method : LogMethod) (message : string)
    (e : E),
    LogHandler.method (Logger.asLogHandler this) method message e =
      (Normal tt,
       if Logger.LOG_LEVEL_PRIORITY (methodLevel method)
          >=? Logger.LOG_LEVEL_PRIORITY (Logger.currentLevel this)
       then snd (LogHandler.method (Logger.logHandler this) method message e)
       else e) /\
    (Logger.LOG_LEVEL_PRIORITY (methodLevel MethodError)
       >=? Logger.LOG_LEVEL_PRIORITY (Logger.currentLevel this)) = true /\
    (Logger.currentLevel this = LevelTrace ->
     (Logger.LOG_LEVEL_PRIORITY (methodLevel method)
        >=? Logger.LOG_LEVEL_PRIORITY (Logger.currentLevel this)) = true).
Proof.
  intros E this method message e. split; [|split].
  - destruct method;
      cbn [LogHandler.method Logger.asLogHandler LogHandler.trace
           LogHandler.debug LogHandler.log LogHandler.info LogHandler.warn
           LogHandler.error methodLevel];
      unfold Logger.trace, Logger.debug, Logger.log, Logger.info, Logger.warn,
        Logger.error, Logger.isLoggable, Logger.tryLog;
      destruct (_ >=? _); try reflexivity;
      cbn [LogHandler.method];
      match goal with
      | |- context [?f (Logger.logHandler this) message e] =>
          destruct (f (Logger.logHandler this) message e) as [[[]|v] e']
      end; reflexivity.
  - destruct (Logger.currentLevel this); reflexivity.
  - intros ->. destruct method; reflexivity.
Qed.

Lemma logger_forwards_by_priority_witness :
  Logger.currentLevel Fixtures.verboseLogger = LevelTrace /\
  (Logger.LOG_LEVEL_PRIORITY (methodLevel MethodDebug)
     >=? Logger.LOG_LEVEL_PRIORITY
           (Logger.currentLevel Fixtures.verboseLogger)) = true.
Proof.
  split; [reflexivity|].
  apply (proj2 (proj2 (logger_forwards_by_priority Fixtures.verboseLogger
                         MethodDebug "Config loaded"
                         (env Fixtures.start)))).
  reflexivity.
Defined.

(** X7.  [Logger.create] with no level, or with one of the five level
    names, builds the logger without calling the handler: at ["info"]
    when no level is given.  With any other string it calls the
    handler's [warn], unfiltered, with the message that quotes the
    string, and builds a logger at ["info"]; what that [warn] throws is
    thrown by [create]. *)
Theorem logger_create_levels :
  forall E (handler : LogHandler.t E) (e : E),
    Logger.create None handler e =
      (Normal {| Logger.currentLevel := LevelInfo;
                 Logger.logHandler := handler |}, e) /\
    (forall level,
        Logger.create (Some (Logger.levelName level)) handler e =
        (Normal {| Logger.currentLevel := level;
                   Logger.logHandler := handler |}, e)) /\
    (forall name,
        (forall level, name <> Logger.levelName level) ->
        let warned :=
          LogHandler.warn handler
            (String.concat ""
               ["Invalid log level "; dquote; name; dquote;
                ", defaulting to "; dquote; "info"; dquote; "."]) e in
        Logger.create (Some name) handler e =
        (match fst warned with
         | Normal _ => Normal {| Logger.currentLevel := LevelInfo;
                                 Logger.logHandler := handler |}
         | Throw v => Throw v
         end, snd warned)).
Proof.
  intros E handler e. split; [reflexivity|]. split.
  - intros level. destruct level; reflexivity.
  - intros name Hname warned. subst warned. unfold Logger.create.
    assert (Hinvalid : Logger.isValidLogLevel name = None).
    { unfold Logger.isValidLogLevel.
      destruct (String.eqb_spec name "trace") as [->|_];
        [now contradiction (Hname LevelTrace)|].
      destruct (String.eqb_spec name "debug") as [->|_];
        [now contradiction (Hname LevelDebug)|].
      destruct (String.eqb_spec name "info") as [->|_];
        [now contradiction (Hname LevelInfo)|].
      destruct (String.eqb_spec name "warn") as [->|_];
        [now contradiction (Hname LevelWarn)|].
      destruct (String.eqb_spec name "error") as [->|_];
        [now contradiction (Hname LevelError)|].
      reflexivity. }
    rewrite Hinvalid. cbn [Logger.levelName Logger.DEFAULT_LOG_LEVEL].
    destruct (LogHandler.warn handler _ e) as [[[]|v] e']; reflexivity.
Qed.

Lemma logger_create_levels_witness :
  (forall level, "verbose" <> Logger.levelName level) /\
  Logger.create (Some "verbose") Fixtures.failingHandler
    (env Fixtures.start) =
  (Throw Fixtures.sinkFailure, env Fixtures.start).
Proof.
  assert (H : forall level, "verbose" <> Logger.levelName level)
    by (intros level; destruct level; discriminate).
  split; [exact H|].
  exact (proj2 (proj2 (logger_create_levels Fixtures.failingHandler
                         (env Fixtures.start))) "verbose" H).
Defined.

(* ================================================================== *)
(** ** Further properties: what every report satisfies *)
(* ================================================================== *)

(** One step through a computation whose collaborators may do
    anything. *)
Ltac wp_any :=
  lazymatch goal with
  | |- wp (RetryService.logger_debug _ _) _ _ =>
      apply wp_logger_debug; intros [[]|?] ?; wp_simpl
  | |- wp (RetryService.isTimedOut _ _) _ _ =>
      apply wp_isTimedOut; intros [|] ?; wp_simpl
  | |- wp (RetryService.stringifyInTemplate _ _) _ _ =>
      apply wp_stringifyInTemplate; intros ?; wp_simpl
  | |- wp (if ?c then _ else _) _ _ => destruct c eqn:?
  | |- wp (match ?x with _ => _ end) _ _ => destruct x eqn:?
  | |- match ?x with _ => _ end => destruct x eqn:?
  | |- _ => wp_step
  end.

Ltac unfold_handlers :=
  unfold RetryService.attemptBody, RetryService.handleTimeout,
    RetryService.handleSuccess, RetryService.handleError,
    RetryService.handleNonRetryableError, RetryService.retryAfterError,
    RetryService.handleRetryableResult.

Section ReportInvariant.

Context {E : Type}.
Variable host : Host.
Variable svc : RetryService.t E.
Variable fn : E -> Completion JsValue * E.
Variable options : RetryOptions.t E.

Import RetryReportBuilder.

(** [I] holds of the builder an iteration starts with, [J] once the
    attempt is counted, [K] once the error is recorded, and [R] of the
    reports [build] returns. *)
Variables I J K : RetryReportBuilder.t -> Prop.
Variable R : RetryReport -> Prop.

Hypothesis I_attempt : forall b, I b -> J (withAttempt b).
Hypothesis J_error : forall b v, J b -> K (withError host v b).
Hypothesis J_retry : forall b v threshold d,
  J b ->
  I (withDelay d (withRetryReason host ReasonResult v
                    (RetryService.sanitizeEnabled options) threshold b)).
Hypothesis K_retry : forall b v threshold d,
  K b ->
  I (withDelay d (withRetryReason host ReasonError v
                    (RetryService.sanitizeEnabled options) threshold b)).
Hypothesis J_timeout : forall b t r,
  J b -> build (withTimeout t b) = Normal r -> R r.
Hypothesis J_success : forall b t r,
  J b -> build (withSuccess t b) = Normal r -> R r.
Hypothesis K_failure : forall b t r,
  K b -> build (withFailure t b) = Normal r -> R r.

Lemma allReports_finished : forall r j,
  R r -> allReports R j -> allReports R (notified options r (addFinal r j)).
Proof.
  intros r j Hr [Hf Hc]. unfold notified.
  destruct (RetryOptions.onComplete options); split; cbn;
    try apply Forall_app; auto.
Qed.

Local Abbreviation kept m st :=
  (wp m (fun _ st' => allReports R (journal st')) st).

Lemma handleTimeout_reports : forall b st,
  J b -> allReports R (journal st) ->
  kept (RetryService.handleTimeout svc options b) st.
Proof.
  intros b st Hb Hst. unfold RetryService.handleTimeout.
  repeat wp_any; try assumption.
  apply allReports_finished; eauto.
Qed.

Lemma handleSuccess_reports : forall result b st,
  J b -> allReports R (journal st) ->
  wp (RetryService.handleSuccess svc options result b)
     (fun c st' => allReports R (journal st') /\
                   forall v, c = Throw v -> journal st' = journal st) st.
Proof.
  intros result b st Hb Hst. unfold RetryService.handleSuccess.
  repeat wp_any; try (split; [assumption | reflexivity]).
  split; [|discriminate]. apply allReports_finished; eauto.
Qed.

Lemma handleNonRetryableError_reports : forall error b retriesLeft
  shouldRetry st,
  K b -> allReports R (journal st) ->
  kept (RetryService.handleNonRetryableError svc options error b retriesLeft
          shouldRetry) st.
Proof.
  intros error b retriesLeft shouldRetry st Hb Hst.
  unfold RetryService.handleNonRetryableError.
  repeat wp_any; try assumption; apply allReports_finished; eauto.
Qed.

Section Step.

Variable attemptNext : RetryService.Attempt (E := E).
Variable retriesLeft : nat.
Hypothesis next_reports :
  retriesLeft <> O ->
  forall delay timeout threshold b st,
    I b -> allReports R (journal st) ->
    kept (attemptNext delay timeout threshold b) st.

Lemma handleError_reports : forall error delay timeout threshold b st,
  J b -> allReports R (journal st) ->
  kept (RetryService.handleError host svc options attemptNext error
          retriesLeft delay timeout threshold b) st.
Proof.
  intros error delay timeout threshold b st Hb Hst.
  unfold RetryService.handleError.
  wp_any. wp_any; [|assumption].
  destruct (Z.leb_spec (Z.of_nat retriesLeft) 0) as [Hr|Hr];
    [rewrite orb_true_r|rewrite orb_false_r; wp_any];
    try (apply handleNonRetryableError_reports; eauto).
  unfold RetryService.retryAfterError.
  repeat wp_any; try assumption;
    (apply next_reports; [lia | eauto | assumption]).
Qed.

Lemma attemptBody_reports : forall delay timeout threshold b st,
  I b -> allReports R (journal st) ->
  kept (RetryService.attemptBody host svc fn options attemptNext retriesLeft
          delay timeout threshold b) st.
Proof.
  intros delay timeout threshold b st Hb Hst.
  pose proof (I_attempt Hb) as Hb'.
  unfold RetryService.attemptBody, RetryService.handleRetryableResult.
  repeat wp_any;
    try (apply handleTimeout_reports; assumption);
    try (apply handleError_reports; assumption);
    try (eapply wp_conseq;
         [apply handleSuccess_reports; [exact Hb' | assumption]|];
         intros [?|?] ? [? Hj]; [assumption|];
         apply handleError_reports; assumption).
  all: (eapply wp_conseq;
        [apply next_reports;
         [apply Z.gtb_gt in Heqb1; lia | eauto | assumption]|];
        intros [?|?] ? ?; [assumption|];
        apply handleError_reports; assumption).
Qed.

End Step.

Lemma attempt_reports : forall retriesLeft delay timeout threshold b st,
  I b -> allReports R (journal st) ->
  kept (RetryService.attempt host svc fn options retriesLeft delay timeout
          threshold b) st.
Proof.
  induction retriesLeft as [|r IH]; intros delay timeout threshold b st Hb Hst;
    cbn [RetryService.attempt]; apply attemptBody_reports; try assumption.
  - intros Hr. now contradiction Hr.
  - intros _. exact IH.
Qed.

Hypothesis I_new : forall t, I (new t).

Lemma retry_reports : forall st,
  allReports R (journal st) ->
  kept (RetryService.retry host svc fn options) st.
Proof.
  intros st Hst. unfold RetryService.retry.
  repeat wp_any; try assumption; apply attempt_reports; auto.
Qed.

End ReportInvariant.

Lemma build_total_time : forall b r,
  RetryReportBuilder.build b = Normal r ->
  r = RetryReportBuilder.report b /\ 0 <= totalTime r.
Proof.
  intros b r. unfold RetryReportBuilder.build.
  destruct (Z.ltb_spec (totalTime (RetryReportBuilder.report b)) 0);
    [discriminate|].
  destruct (attempts (RetryReportBuilder.report b) <? 0); [discriminate|].
  intros [= <-]. now split.
Qed.

(** X8.  In every report built during a call of [retry], and so in every
    report handed to [onComplete], whatever the operation, the policy,
    the timer and the logger do: [attempts] is the number of recorded
    delays plus one, there are no more errors than attempts,
    [totalTime] is not negative, and [retryReasons] is absent or not
    empty. *)
Theorem built_reports_count_consistently :
  forall E (host : Host) (svc : RetryService.t E)
    (fn : E -> Completion JsValue * E) (options : RetryOptions.t E) (e : E),
    allReports
      (fun r =>
         attempts r = Z.of_nat (List.length (delays r)) + 1 /\
         Z.of_nat (List.length (errors r)) <= attempts r /\
         0 <= totalTime r /\
         retryReasons r <> Some [])
      (journal (snd (RetryService.retry host svc fn options
                       {| env := e; journal := emptyJournal |}))).
Proof.
  intros E host svc fn options e.
  apply (@retry_reports E host svc fn options
           (fun b =>
              let r := RetryReportBuilder.report b in
              attempts r = Z.of_nat (List.length (delays r)) /\
              Z.of_nat (List.length (errors r)) <= attempts r /\
              retryReasons r <> Some [])
           (fun b =>
              let r := RetryReportBuilder.report b in
              attempts r = Z.of_nat (List.length (delays r)) + 1 /\
              Z.of_nat (List.length (errors r)) + 1 <= attempts r /\
              retryReasons r <> Some [])
           (fun b =>
              let r := RetryReportBuilder.report b in
              attempts r = Z.of_nat (List.length (delays r)) + 1 /\
              Z.of_nat (List.length (errors r)) <= attempts r /\
              retryReasons r <> Some [])).
  - intros b (Ha & He & Hr). cbn. repeat split; auto; lia.
  - intros b v (Ha & He & Hr). cbn. rewrite length_app. cbn.
    repeat split; auto; lia.
  - intros b v threshold d (Ha & He & Hr). cbn. rewrite length_app. cbn.
    repeat split; try lia.
    destruct (retryReasons (RetryReportBuilder.report b)); cbn;
      intros [= H]; now destruct l.
  - intros b v threshold d (Ha & He & Hr). cbn. rewrite length_app. cbn.
    repeat split; try lia.
    destruct (retryReasons (RetryReportBuilder.report b)); cbn;
      intros [= H]; now destruct l.
  - intros b t r (Ha & He & Hr) Hb.
    apply build_total_time in Hb. destruct Hb as [-> Ht]. cbn in *.
    repeat split; auto; lia.
  - intros b t r (Ha & He & Hr) Hb.
    apply build_total_time in Hb. destruct Hb as [-> Ht]. cbn in *.
    repeat split; auto; lia.
  - intros b t r (Ha & He & Hr) Hb.
    apply build_total_time in Hb. destruct Hb as [-> Ht]. cbn in *.
    repeat split; auto; lia.
  - intros t. cbn. repeat split; try lia. discriminate.
  - split; constructor.
Qed.

(** X9.  In every report built during a call of [retry], [timedOut] is
    absent, or it is [true] and the report is not marked as succeeded:
    no report says both, and none has [timedOut] set to [false]. *)
Theorem built_reports_flag_one_outcome :
  forall E (host : Host) (svc : RetryService.t E)
    (fn : E -> Completion JsValue * E) (options : RetryOptions.t E) (e : E),
    allReports
      (fun r =>
         timedOut r = None \/
         (timedOut r = Some true /\ retryingOperationSucceeded r = false))
      (journal (snd (RetryService.retry host svc fn options
                       {| env := e; journal := emptyJournal |}))).
Proof.
  intros E host svc fn options e.
  pose (fresh := fun b =>
          retryingOperationSucceeded (RetryReportBuilder.report b) = false /\
          timedOut (RetryReportBuilder.report b) = None).
  apply (@retry_reports E host svc fn options fresh fresh fresh);
    subst fresh; cbn beta.
  - auto.
  - auto.
  - auto.
  - auto.
  - intros b t r [Hs Ht] Hb. apply build_total_time in Hb.
    destruct Hb as [-> _]. cbn. rewrite Hs. now right.
  - intros b t r [Hs Ht] Hb. apply build_total_time in Hb.
    destruct Hb as [-> _]. cbn. rewrite Ht. now left.
  - intros b t r [Hs Ht] Hb. apply build_total_time in Hb.
    destruct Hb as [-> _]. cbn. rewrite Ht. now left.
  - intros t. split; reflexivity.
  - split; constructor.
Qed.

(* ================================================================== *)
(** ** Further properties: what a call leaves in the journal *)
(* ================================================================== *)

Section Traced.

Context {E : Type}.
Variable host : Host.
Variable svc : RetryService.t E.
Variable fn : E -> Completion JsValue * E.
Variable options : RetryOptions.t E.

Import RetryReportBuilder.

Local Abbreviation failing b :=
  (retryingOperationSucceeded (report b) = false).

Ltac built :=
  repeat match goal with
         | H : build _ = Normal _ |- _ =>
             apply BuilderFacts.build_report in H; subst
         end.

Lemma handleTimeout_trace : forall b st,
  failing b ->
  wp (RetryService.handleTimeout svc options b)
     (fun c st' =>
        exists x, c = Throw x /\
          (journal st' = journal st \/
           exists r, timedOut r = Some true /\
                     retryingOperationSucceeded r = false /\
                     journal st' = finished options r (journal st))) st.
Proof.
  intros b st Hb. unfold RetryService.handleTimeout.
  repeat wp_any; built; eexists; (split; [reflexivity|]);
    try (left; reflexivity).
  right. eexists. split; [|split; [|reflexivity]]; [reflexivity|exact Hb].
Qed.

Lemma handleSuccess_trace : forall result b st,
  wp (RetryService.handleSuccess svc options result b)
     (fun c st' =>
        match c with
        | Throw _ => journal st' = journal st
        | Normal v =>
            v = result /\
            exists r, retryingOperationSucceeded r = true /\
                      journal st' = finished options r (journal st)
        end) st.
Proof.
  intros result b st. unfold RetryService.handleSuccess.
  repeat wp_any; built; try reflexivity.
  split; [reflexivity|]. eexists. split; [|reflexivity]. reflexivity.
Qed.

Lemma handleNonRetryableError_trace : forall error b retriesLeft shouldRetry
  st,
  wp (RetryService.handleNonRetryableError svc options error b retriesLeft
        shouldRetry)
     (fun c st' =>
        exists x, c = Throw x /\
          (journal st' = journal st \/
           exists r, retryingOperationSucceeded r = false /\
                     journal st' = finished options r (journal st))) st.
Proof.
  intros error b retriesLeft shouldRetry st.
  unfold RetryService.handleNonRetryableError.
  repeat wp_any; built; eexists; (split; [reflexivity|]);
    try (left; reflexivity);
    right; eexists; (split; [|reflexivity]); reflexivity.
Qed.

Section Step.

Variable attemptNext : RetryService.Attempt (E := E).
Variable retriesLeft : nat.
Variable delay : Z.
Variable next : Journal -> Completion JsValue -> Journal -> Prop.
Hypothesis next_trace :
  retriesLeft <> O ->
  forall timeout threshold b st,
    failing b ->
    wp (attemptNext delay timeout threshold b)
       (fun c st' => next (journal st) c (journal st')) st.

Ltac stopped_or_failed :=
  intros ? ? (? & -> & [Hj | (? & ? & Hj)]); cbn [journal] in Hj; rewrite Hj.

Lemma handleError_trace : forall error timeout threshold b st,
  failing b ->
  wp (RetryService.handleError host svc options attemptNext error
        retriesLeft delay timeout threshold b)
     (fun c st' =>
        caught options delay next retriesLeft (journal st) c (journal st'))
     st.
Proof.
  intros error timeout threshold b st Hb.
  unfold RetryService.handleError.
  wp_any. wp_any; [|apply caught_stopped].
  destruct (Z.leb_spec (Z.of_nat retriesLeft) 0) as [Hr|Hr];
    [rewrite orb_true_r|rewrite orb_false_r; wp_any];
    try (eapply wp_conseq; [apply handleNonRetryableError_trace|];
         stopped_or_failed;
         [apply caught_stopped | now apply caught_failed]).
  unfold RetryService.retryAfterError.
  wp_any. wp_any; [|apply caught_stopped].
  wp_any.
  destruct (RetryService.calculateDelay options retriesLeft delay =? 0)
    eqn:Hd; wp_any;
    (eapply wp_conseq; [apply next_trace; [lia | exact Hb]|];
     intros c st' Hn; apply caught_again; [lia|];
     unfold waited; rewrite Hd; exact Hn).
Qed.

Lemma attemptBody_trace : forall timeout threshold b st,
  failing b ->
  wp (RetryService.attemptBody host svc fn options attemptNext retriesLeft
        delay timeout threshold b)
     (fun c st' =>
        iterated options delay next retriesLeft (journal st) c (journal st'))
     st.
Proof.
  intros timeout threshold b st Hb.
  unfold RetryService.attemptBody.
  wp_any. wp_any.
  - eapply wp_conseq; [apply handleTimeout_trace; exact Hb|].
    intros ? ? (? & -> & [Hj | (? & ? & ? & Hj)]); cbn [journal] in Hj;
      rewrite Hj; [apply iterated_stopped | now apply iterated_timeout].
  - wp_any.
    apply wp_conseq with
      (Q := fun c st' =>
              tried options delay next retriesLeft (journal st) c
                (journal st')).
    + wp_any. wp_any; [|apply tried_nothing].
      wp_any. wp_any. wp_any; [|apply tried_threw].
      assert (Hs : forall st2,
        journal st2 = addCall (Normal a) (journal st) ->
        wp (RetryService.handleSuccess svc options a (withAttempt b))
           (fun c st' =>
              tried options delay next retriesLeft (journal st) c
                (journal st')) st2).
      { intros st2 H2. eapply wp_conseq; [apply handleSuccess_trace|].
        intros [v|x] st' H; cbn beta iota in H.
        - destruct H as (-> & r & Hr & ->). rewrite H2.
          now apply tried_succeeded.
        - rewrite H, H2. apply tried_lost. }
      change (match RetryOptions.retryOnResult options with
              | Some retryOnResult => retryOnResult a
              | None => false
              end) with (flagged options a).
      destruct (flagged options a) eqn:Hf; [|now apply Hs].
      destruct (Z.gtb_spec (Z.of_nat retriesLeft) 0) as [Hr|Hr].
      * unfold RetryService.handleRetryableResult.
        wp_any. wp_any; [|apply tried_lost]. wp_any.
        destruct (RetryService.calculateDelay options retriesLeft delay =? 0)
          eqn:Hd; wp_any;
          (eapply wp_conseq; [apply next_trace; [lia | exact Hb]|];
           intros c st' Hn; eapply tried_again; [exact Hf | lia |];
           unfold waited; rewrite Hd; exact Hn).
      * wp_any. wp_any; [|apply tried_lost].
        wp_any. wp_any; [|apply tried_lost]. now apply Hs.
    + intros [a|x] st' Ht; [now apply iterated_returned|].
      eapply wp_conseq; [apply handleError_trace; exact Hb|].
      intros c st2 Hc. eapply iterated_caught; eassumption.
Qed.

End Step.

Lemma attempt_trace : forall retriesLeft delay timeout threshold b st,
  failing b ->
  wp (RetryService.attempt host svc fn options retriesLeft delay timeout
        threshold b)
     (fun c st' =>
        attempted options delay retriesLeft (journal st) c (journal st')) st.
Proof.
  induction retriesLeft as [|r IH]; intros delay timeout threshold b st Hb;
    cbn [RetryService.attempt attempted]; apply attemptBody_trace;
    try assumption.
  - intros Hr. now contradiction Hr.
  - intros _ timeout' threshold' b' st' Hb'. now apply IH.
Qed.

(** What [retry] leaves in the journal: nothing when the policy is
    rejected or the first reading of the clock is all it did, and the
    journal of [attempt] otherwise. *)
Lemma retry_trace : forall st,
  wp (RetryService.retry host svc fn options)
     (fun c st' =>
        (RetryService.validateOptions options <> Normal tt /\
         journal st' = journal st) \/
        (RetryService.validateOptions options = Normal tt /\
         attempted options
           (Z.max 0 (match RetryOptions.delay options with
                     | Some d => d
                     | None => 0
                     end))
           (Z.to_nat (Z.max 0 (RetryOptions.retries options)))
           (journal st) c (journal st'))) st.
Proof.
  intros st. unfold RetryService.retry.
  destruct (RetryService.validateOptions options) as [[]|x] eqn:Hv.
  - repeat wp_any;
      (eapply wp_conseq; [apply attempt_trace; reflexivity|];
       intros c st' H; right; split; [reflexivity | exact H]).
  - wp_any. wp_any. left. split; [discriminate | reflexivity].
Qed.

End Traced.

Section JournalFields.

Context {E : Type}.
Variable options : RetryOptions.t E.
Variable delay : Z.

Lemma calls_finished : forall r j,
  calls (finished options r j) = calls j.
Proof.
  intros r j. unfold finished, notified.
  now destruct (RetryOptions.onComplete options).
Qed.

Lemma waits_finished : forall r j,
  waits (finished options r j) = waits j.
Proof.
  intros r j. unfold finished, notified.
  now destruct (RetryOptions.onComplete options).
Qed.

Lemma finals_finished : forall r j,
  finals (finished options r j) = finals j ++ [r].
Proof.
  intros r j. unfold finished, notified.
  now destruct (RetryOptions.onComplete options).
Qed.

Lemma completions_finished : forall r j,
  completions (finished options r j) =
  completions j ++ match RetryOptions.onComplete options with
                   | Some _ => [r]
                   | None => []
                   end.
Proof.
  intros r j. unfold finished, notified.
  destruct (RetryOptions.onComplete options); cbn; [reflexivity|].
  now rewrite app_nil_r.
Qed.

Lemma calls_waited : forall n j,
  calls (waited options delay n j) = calls j.
Proof. intros n j. unfold waited. now destruct (_ =? 0). Qed.

Lemma finals_waited : forall n j,
  finals (waited options delay n j) = finals j.
Proof. intros n j. unfold waited. now destruct (_ =? 0). Qed.

Lemma completions_waited : forall n j,
  completions (waited options delay n j) = completions j.
Proof. intros n j. unfold waited. now destruct (_ =? 0). Qed.

End JournalFields.

Ltac journal_fields :=
  repeat first
    [ rewrite calls_finished in * | rewrite waits_finished in *
    | rewrite finals_finished in * | rewrite completions_finished in *
    | rewrite calls_waited in * | rewrite finals_waited in *
    | rewrite completions_waited in * ];
  cbn [calls waits finals completions addCall addWait addFinal addCompletion]
    in *.

Section JournalInvariant.

Context {E : Type}.
Variable options : RetryOptions.t E.
Variable delay : Z.

(** [P] is kept by every step a call takes on the journal; [allowed]
    bounds the retries left when a delay is awaited. *)
Variable P : Journal -> Prop.
Variable allowed : nat -> Prop.

Hypothesis allowed_less : forall n, allowed (S n) -> allowed n.
Hypothesis P_call : forall c j, P j -> P (addCall c j).
Hypothesis P_wait : forall n j,
  allowed n -> n <> O -> P j -> P (waited options delay n j).
Hypothesis P_finish : forall r j, P j -> P (finished options r j).

Section Step.

Variable next : Journal -> Completion JsValue -> Journal -> Prop.
Variable n : nat.
Hypothesis allowed_n : allowed n.
Hypothesis next_invariant : forall j c j', next j c j' -> P j -> P j'.

Lemma tried_invariant : forall j c j',
  tried options delay next n j c j' -> P j -> P j'.
Proof.
  intros j c j' H Hj. destruct H; auto.
  eapply next_invariant; [eassumption|]. auto.
Qed.

Lemma caught_invariant : forall j c j',
  caught options delay next n j c j' -> P j -> P j'.
Proof.
  intros j c j' H Hj. destruct H; auto.
  eapply next_invariant; [eassumption|]. auto.
Qed.

Lemma iterated_invariant : forall j c j',
  iterated options delay next n j c j' -> P j -> P j'.
Proof.
  intros j c j' H Hj. destruct H; auto.
  - eapply tried_invariant; eassumption.
  - eapply caught_invariant; [eassumption|].
    eapply tried_invariant; eassumption.
Qed.

End Step.

Lemma attempted_invariant : forall n j c j',
  allowed n -> attempted options delay n j c j' -> P j -> P j'.
Proof.
  induction n as [|n IH]; intros j c j' Hn H Hj; cbn [attempted] in H;
    (eapply iterated_invariant; [exact Hn | | exact H | exact Hj]).
  - intros ? ? ? [].
  - intros j1 c1 j2. apply IH. now apply allowed_less.
Qed.

End JournalInvariant.

Lemma retry_delivered :
  forall E (host : Host) (svc : RetryService.t E)
    (fn : E -> Completion JsValue * E) (options : RetryOptions.t E) (e : E),
    delivered options
      (journal (snd (RetryService.retry host svc fn options
                       {| env := e; journal := emptyJournal |}))).
Proof.
  intros E host svc fn options e.
  assert (H0 : delivered options emptyJournal).
  { unfold delivered. now destruct (RetryOptions.onComplete options). }
  pose proof (retry_trace host svc fn options
                {| env := e; journal := emptyJournal |}) as H.
  unfold wp in H. cbn [journal] in H.
  destruct H as [[_ ->] | [_ H]]; [exact H0|].
  eapply attempted_invariant with (allowed := fun _ => True);
    [ auto | | | | exact I | exact H | exact H0 ].
  - intros c j Hj. exact Hj.
  - intros n j _ _ Hj. unfold delivered in *. now journal_fields.
  - intros r j Hj. unfold delivered in *.
    rewrite completions_finished, finals_finished, Hj.
    destruct (RetryOptions.onComplete options); reflexivity.
Qed.

(** X10.  Whatever the operation, the timer and the logger do, and for
    every policy whose predicates and hook return normally, [onComplete]
    is handed every report that is built during a call of [retry], in
    the order they are built, and nothing else; with no hook there is no
    notification. *)
Theorem onComplete_receives_every_report :
  forall E (host : Host) (svc : RetryService.t E)
    (fn : E -> Completion JsValue * E) (options : RetryOptions.t E) (e : E),
    let j := journal (snd (RetryService.retry host svc fn options
                             {| env := e; journal := emptyJournal |})) in
    completions j =
    match RetryOptions.onComplete options with
    | Some _ => finals j
    | None => []
    end.
Proof.
  intros E host svc fn options e j. subst j.
  apply (retry_delivered host svc fn options e).
Qed.

(** X11.  Whatever the operation, the policy, the timer and the logger
    do, every duration [retry] hands to [timer.delay] is positive: a
    delay of [0] is not awaited, and a policy that passed
    [validateOptions] computes no negative delay. *)
Theorem timer_delay_durations_are_positive :
  forall E (host : Host) (svc : RetryService.t E)
    (fn : E -> Completion JsValue * E) (options : RetryOptions.t E) (e : E),
    Forall (fun ms => 0 < ms)
      (waits (journal (snd (RetryService.retry host svc fn options
                              {| env := e; journal := emptyJournal |})))).
Proof.
  intros E host svc fn options e.
  pose proof (retry_trace host svc fn options
                {| env := e; journal := emptyJournal |}) as H.
  unfold wp in H. cbn [journal] in H.
  destruct H as [[_ ->] | [Hv H]]; [constructor|].
  pose proof (valid_retries options Hv) as Hr.
  revert H.
  set (delay := Z.max 0 _).
  assert (Hd : 0 <= delay) by (subst delay; lia).
  clearbody delay. intros H.
  eapply attempted_invariant
    with (P := fun j => Forall (fun ms => 0 < ms) (waits j))
         (allowed := fun n => Z.of_nat n <= RetryOptions.retries options);
    [ | | | | | exact H | constructor ]; cbn beta.
  - intros n. lia.
  - intros c j Hj. exact Hj.
  - intros n j Hn _ Hj. unfold waited.
    destruct (Z.eqb_spec (RetryService.calculateDelay options n delay) 0)
      as [_|Hnz]; [exact Hj|].
    cbn [waits addWait]. apply Forall_app. split; [exact Hj|].
    constructor; [|constructor].
    unfold RetryService.calculateDelay in *.
    destruct (RetryOptions.exponentialBackoff options) as [[|]|]; nia.
  - intros r j Hj. now rewrite waits_finished.
  - lia.
Qed.

Section Bounds.

Context {E : Type}.
Variable options : RetryOptions.t E.
Variable delay : Z.

Local Abbreviation grew a b j j' :=
  ((List.length (calls j') <= List.length (calls j) + a)%nat /\
   (List.length (finals j') <= List.length (finals j) + b)%nat).

Section Step.

Variable next : Journal -> Completion JsValue -> Journal -> Prop.
Variable n : nat.
Variables a b : nat.
Hypothesis next_bound : forall j c j', next j c j' -> grew a b j j'.
Hypothesis one_report : (1 <= b)%nat.

Ltac bound_cases H :=
  inversion H; subst; clear H;
  repeat match goal with
         | T : tried _ _ _ _ _ _ _ |- _ => inversion T; subst; clear T
         | C : caught _ _ _ _ _ _ _ |- _ => inversion C; subst; clear C
         end;
  repeat match goal with
         | N : next _ _ _ |- _ => apply next_bound in N
         end;
  journal_fields; rewrite ?length_app in *; cbn [List.length] in *.

Lemma iterated_bound_once : forall j c j',
  (forall v, flagged options v = false) \/ n = O ->
  iterated options delay next n j c j' ->
  grew (1 + a) b j j'.
Proof.
  intros j c j' Hplain H.
  bound_cases H.
  all: try (destruct Hplain as [Hf|Hn]; [congruence|contradiction]).
  all: lia.
Qed.

Lemma iterated_bound_twice : forall j c j',
  iterated options delay next n j c j' ->
  grew (1 + 2 * a) (2 * b) j j'.
Proof.
  intros j c j' H.
  bound_cases H.
  all: lia.
Qed.

End Step.

Lemma attempted_bound : forall n j c j',
  attempted options delay n j c j' ->
  grew (invocationBound options n) (reportBound options n) j j'.
Proof.
  unfold invocationBound, reportBound.
  destruct (RetryOptions.retryOnResult options) as [f|] eqn:Hf.
  - induction n as [|n IH]; intros j c j' H; cbn [attempted] in H.
    + apply iterated_bound_once with (a := 0%nat) (b := 1%nat) in H;
        [exact H | first [intros ? ? ? [] | lia | now right] ..].
    + apply iterated_bound_twice with
        (a := (2 ^ (n + 1) - 1)%nat) (b := (2 ^ n)%nat) in H;
        [|first [exact IH | apply Nat.neq_0_lt_0, Nat.pow_nonzero; lia] ..].
      replace (S n + 1)%nat with (S (n + 1)) by lia.
      rewrite !Nat.pow_succ_r'.
      pose proof (Nat.pow_nonzero 2 (n + 1)).
      lia.
  - induction n as [|n IH]; intros j c j' H; cbn [attempted] in H.
    + apply iterated_bound_once with (a := 0%nat) (b := 1%nat) in H;
        [exact H | first [intros ? ? ? [] | lia | now right] ..].
    + apply iterated_bound_once with (a := (n + 1)%nat) (b := 1%nat) in H;
        [ | first [ exact IH | lia
                  | left; intros v; unfold flagged; now rewrite Hf ] ..].
      replace (S n + 1)%nat with (1 + (n + 1))%nat by lia. exact H.
Qed.

End Bounds.


Section Outcome.

Context {E : Type}.
Variable options : RetryOptions.t E.
Variable delay : Z.

Local Abbreviation failed j :=
  (Forall (fun r => retryingOperationSucceeded r = false) (finals j)).

Local Abbreviation outcome c j :=
  (match c with
   | Normal v =>
       lastOf (calls j) = Some (Normal v) /\
       exists earlier rep,
         finals j = earlier ++ [rep] /\
         retryingOperationSucceeded rep = true /\
         Forall (fun r => retryingOperationSucceeded r = false) earlier
   | Throw _ => failed j
   end).

Section Step.

Variable next : Journal -> Completion JsValue -> Journal -> Prop.
Variable n : nat.
Hypothesis next_outcome : forall j c j',
  next j c j' -> failed j -> outcome c j'.

Lemma tried_outcome : forall j c j',
  tried options delay next n j c j' -> failed j -> outcome c j'.
Proof.
  intros j c j' H Hj. destruct H; journal_fields; try assumption.
  - split; [apply lastOf_snoc|]. now exists (finals j), r.
  - apply next_outcome in H1; [assumption|]. now journal_fields.
Qed.

Lemma caught_outcome : forall j c j',
  caught options delay next n j c j' -> failed j -> outcome c j'.
Proof.
  intros j c j' H Hj. destruct H; journal_fields; try assumption.
  - apply Forall_app. split; [assumption|]. now constructor.
  - apply next_outcome in H0; [assumption|]. now journal_fields.
Qed.

Lemma iterated_outcome : forall j c j',
  iterated options delay next n j c j' -> failed j -> outcome c j'.
Proof.
  intros j c j' H Hj. destruct H; journal_fields; try assumption.
  - apply Forall_app. split; [assumption|]. now constructor.
  - now apply (tried_outcome H).
  - apply (caught_outcome H0). now apply (tried_outcome H).
Qed.

End Step.

Lemma attempted_outcome : forall n j c j',
  attempted options delay n j c j' -> failed j -> outcome c j'.
Proof.
  induction n as [|n IH]; intros j c j' H Hj; cbn [attempted] in H;
    (eapply iterated_outcome; [ | exact H | exact Hj]).
  - intros ? ? ? [].
  - exact IH.
Qed.

End Outcome.


(* ================================================================== *)
(** ** Further properties: the service and its logger *)
(* ================================================================== *)

(** [attempt] uses of the service the [debug] method of its logger and
    the timer, and nothing else. *)
Lemma attempt_uses_debug_and_timer :
  forall E (host : Host) (svc1 svc2 : RetryService.t E)
    (fn : E -> Completion JsValue * E) (options : RetryOptions.t E),
    LogHandler.debug (RetryService.logger svc1) =
      LogHandler.debug (RetryService.logger svc2) ->
    RetryService.timer svc1 = RetryService.timer svc2 ->
    forall retriesLeft,
      RetryService.attempt host svc1 fn options retriesLeft =
      RetryService.attempt host svc2 fn options retriesLeft.
Proof.
  intros E host [l1 t1] [l2 t2] fn options. cbn [RetryService.logger
    RetryService.timer]. intros Hd <-.
  induction retriesLeft as [|r IH]; cbn [RetryService.attempt];
    unfold_handlers;
    unfold RetryService.isTimedOut, RetryService.logger_debug,
      RetryService.timer_now, RetryService.timer_delay,
      RetryService.notifyComplete;
    cbn [RetryService.logger RetryService.timer];
    rewrite Hd; [|rewrite IH]; reflexivity.
Qed.

Lemma retry_uses_debug_and_timer :
  forall E (host : Host) (svc1 svc2 : RetryService.t E)
    (fn : E -> Completion JsValue * E) (options : RetryOptions.t E),
    LogHandler.debug (RetryService.logger svc1) =
      LogHandler.debug (RetryService.logger svc2) ->
    RetryService.timer svc1 = RetryService.timer svc2 ->
    RetryService.retry host svc1 fn options =
    RetryService.retry host svc2 fn options.
Proof.
  intros E host svc1 svc2 fn options Hd Ht.
  pose proof (attempt_uses_debug_and_timer host svc1 svc2 fn options Hd Ht)
    as Ha.
  unfold RetryService.retry, RetryService.timer_now.
  rewrite Ht.
  now rewrite (Ha (Z.to_nat (Z.max 0 (RetryOptions.retries options)))).
Qed.

(** X14.  A service whose logger is a [Logger]: its [debug] never
    throws, whatever the handler does; and when the logger's level is
    above ["debug"], as the default ["info"] is, a call of [retry] never
    reaches the handler: it runs the same with any other handler. *)
Theorem retry_with_a_logger :
  forall E (host : Host) (this : Logger.t E) (timer : Timer E),
    quietLogger {| RetryService.logger := Logger.asLogHandler this;
                   RetryService.timer := timer |} /\
    (Logger.LOG_LEVEL_PRIORITY LevelDebug
       < Logger.LOG_LEVEL_PRIORITY (Logger.currentLevel this) ->
     forall (handler : LogHandler.t E) (fn : E -> Completion JsValue * E)
       (options : RetryOptions.t E) (st : State E),
       RetryService.retry host
         {| RetryService.logger := Logger.asLogHandler this;
            RetryService.timer := timer |} fn options st =
       RetryService.retry host
         {| RetryService.logger :=
              Logger.asLogHandler
                {| Logger.currentLevel := Logger.currentLevel this;
                   Logger.logHandler := handler |};
            RetryService.timer := timer |} fn options st).
Proof.
  intros E host this timer. split.
  - intros message e.
    cbn [RetryService.logger Logger.asLogHandler LogHandler.debug].
    unfold Logger.debug, Logger.tryLog.
    destruct (Logger.isLoggable this LevelDebug); [|reflexivity].
    cbn [LogHandler.method].
    now destruct (LogHandler.debug (Logger.logHandler this) message e)
      as [[[]|v] e'].
  - intros Hlevel handler fn options st.
    rewrite (@retry_uses_debug_and_timer E host
               {| RetryService.logger := Logger.asLogHandler this;
                  RetryService.timer := timer |}
               {| RetryService.logger :=
                    Logger.asLogHandler
                      {| Logger.currentLevel := Logger.currentLevel this;
                         Logger.logHandler := handler |};
                  RetryService.timer := timer |} fn options);
      [reflexivity | | reflexivity].
    cbn [RetryService.logger Logger.asLogHandler LogHandler.debug].
    unfold Logger.debug, Logger.isLoggable.
    cbn [Logger.currentLevel].
    destruct (Z.geb_spec (Logger.LOG_LEVEL_PRIORITY LevelDebug)
                (Logger.LOG_LEVEL_PRIORITY (Logger.currentLevel this)));
      [lia | reflexivity].
Qed.

Lemma retry_with_a_logger_witness :
  Logger.LOG_LEVEL_PRIORITY LevelDebug
    < Logger.LOG_LEVEL_PRIORITY (Logger.currentLevel Fixtures.defaultLogger)
  /\
  RetryService.retry Fixtures.demoHost
    {| RetryService.logger := Logger.asLogHandler Fixtures.defaultLogger;
       RetryService.timer := Fixtures.steppingTimer 0 |}
    Fixtures.alwaysX Fixtures.retryTwice Fixtures.start =
  RetryService.retry Fixtures.demoHost
    {| RetryService.logger :=
         Logger.asLogHandler
           {| Logger.currentLevel := LevelInfo;
              Logger.logHandler := Fixtures.quietHandler |};
       RetryService.timer := Fixtures.steppingTimer 0 |}
    Fixtures.alwaysX Fixtures.retryTwice Fixtures.start.
Proof.
  split; [reflexivity|].
  apply (proj2 (retry_with_a_logger Fixtures.demoHost Fixtures.defaultLogger
                  (Fixtures.steppingTimer 0))).
  reflexivity.
Defined.

(* ================================================================== *)
(** ** Further properties: an operation that comes to be accepted *)
(* ================================================================== *)

Section Accepted.

Context {E : Type}.
Variable host : Host.
Variable svc : RetryService.t E.
Variable fn : E -> Completion JsValue * E.
Variable options : RetryOptions.t E.

Import RetryReportBuilder.

(** [remaining e] is the number of invocations that are still to be
    retried in the environment [e]; only the operation changes it. *)
Variable remaining : E -> nat.
Variable value : JsValue.

Hypothesis logger_quiet : quietLogger svc.
Hypothesis debug_keeps : forall message e,
  remaining (snd (LogHandler.debug (RetryService.logger svc) message e))
  = remaining e.
Hypothesis now_keeps : forall e,
  remaining (snd (now (RetryService.timer svc) e)) = remaining e.
Hypothesis delay_keeps : forall ms e,
  remaining (delay (RetryService.timer svc) ms e) = remaining e.
Hypothesis fn_retried : forall e k,
  remaining e = S k ->
  remaining (snd (fn e)) = k /\
  ((exists x, fst (fn e) = Throw x /\ judgedRetryable options x = true) \/
   (exists v, fst (fn e) = Normal v /\ flagged options v = true)).
Hypothesis fn_accepted : forall e,
  remaining e = O -> fst (fn e) = Normal value.
Hypothesis value_accepted : flagged options value = false.

Lemma wp_debug_kept : forall message Q (st : State E),
  (forall e', remaining e' = remaining (env st) ->
              Q (Normal tt) {| env := e'; journal := journal st |}) ->
  wp (RetryService.logger_debug svc message) Q st.
Proof.
  intros message Q st H. unfold wp, RetryService.logger_debug, call.
  pose proof (logger_quiet message (env st)) as Hq.
  pose proof (debug_keeps message (env st)) as Hk.
  destruct (LogHandler.debug (RetryService.logger svc) message (env st))
    as [c e']. cbn [fst snd] in *. subst c. now apply H.
Qed.

Lemma wp_delay_kept : forall ms Q (st : State E),
  (forall e', remaining e' = remaining (env st) ->
              Q (Normal tt)
                {| env := e'; journal := addWait ms (journal st) |}) ->
  wp (RetryService.timer_delay svc ms) Q st.
Proof. intros ms Q st H. apply H, delay_keeps. Qed.

Lemma wp_invoke_exact : forall Q (st : State E),
  Q (fst (fn (env st)))
    {| env := snd (fn (env st));
       journal := addCall (fst (fn (env st))) (journal st) |} ->
  wp (invoke fn) Q st.
Proof.
  intros Q st H. unfold wp, invoke.
  now destruct (fn (env st)) as [c e'].
Qed.

Local Abbreviation thrown retried :=
  (List.length
     (filter (fun c : Completion JsValue =>
                match c with Throw _ => true | Normal _ => false end)
        retried)).

#[warnings="-inconsistent-scopes"]
Local Abbreviation accepted_after k b st :=
  (fun (c : Completion JsValue) (st' : State E) =>
     c = Normal value /\
     exists retried rep,
       List.length retried = k /\
       calls (journal st') =
         calls (journal st) ++ retried ++ [Normal value] /\
       finals (journal st') = finals (journal st) ++ [rep] /\
       completions (journal st') =
         completions (journal st)
           ++ match RetryOptions.onComplete options with
              | Some _ => [rep]
              | None => []
              end /\
       retryingOperationSucceeded rep = true /\
       attempts rep = attempts (report b) + Z.of_nat k + 1 /\
       List.length (delays rep) =
         Nat.add (List.length (delays (report b))) k /\
       List.length (errors rep) =
         Nat.add (List.length (errors (report b))) (thrown retried)).

Lemma attemptBody_accepts : forall attemptNext retriesLeft delay threshold b
  st,
  remaining (env st) = O ->
  clockNotBefore svc (startTime (report b)) ->
  0 <= attempts (report b) ->
  wp (RetryService.attemptBody host svc fn options attemptNext retriesLeft
        delay None threshold b)
     (accepted_after O b st) st.
Proof.
  intros attemptNext retriesLeft delay threshold b st Hk Hclock Hatt.
  unfold RetryService.attemptBody. cbn [RetryService.isTimedOut].
  wp_step. wp_step. wp_step. wp_step.
  apply wp_debug_kept. intros e1 He1. wp_simpl.
  wp_step. apply wp_invoke_exact. cbn [env].
  rewrite fn_accepted by congruence. wp_simpl.
  change (match RetryOptions.retryOnResult options with
          | Some retryOnResult => retryOnResult value
          | None => false
          end) with (flagged options value).
  rewrite value_accepted.
  apply handleSuccess_spec; try assumption; [cbn; lia|].
  intros t e' Ht. journal_simpl. split; [reflexivity|].
  exists [], (report (withSuccess t (withAttempt b))).
  cbn. repeat split; lia.
Qed.

Lemma attempt_until_accepted : forall retriesLeft k delay threshold b st,
  remaining (env st) = k -> (k <= retriesLeft)%nat ->
  clockNotBefore svc (startTime (report b)) ->
  0 <= attempts (report b) ->
  wp (RetryService.attempt host svc fn options retriesLeft delay None
        threshold b)
     (accepted_after k b st) st.
Proof.
  induction retriesLeft as [|r IH]; intros k delay threshold b st Hk Hle
    Hclock Hatt; (destruct k as [|k]; [|try lia]);
    cbn [RetryService.attempt];
    try (now apply attemptBody_accepts).
  unfold RetryService.attemptBody. cbn [RetryService.isTimedOut].
  wp_step. wp_step. wp_step. wp_step.
  apply wp_debug_kept. intros e1 He1. wp_simpl.
  wp_step. apply wp_invoke_exact. cbn [env].
  destruct (fn_retried (e := e1) (k := k))
    as [Hnext [(x & Hx & Hretry) | (v & Hv & Hflag)]];
    [congruence | |].
  - rewrite Hx. wp_simpl. unfold RetryService.handleError.
    wp_step. apply wp_debug_kept. intros e2 He2. wp_simpl.
    change (match RetryOptions.retryOnError options with
            | Some retryOnError => retryOnError x
            | None => true
            end) with (judgedRetryable options x).
    rewrite Hretry. cbn [negb orb].
    destruct (Z.leb_spec (Z.of_nat (S r)) 0) as [|_]; [lia|].
    unfold RetryService.retryAfterError.
    wp_step. apply wp_debug_kept. intros e3 He3. wp_simpl. wp_step.
    destruct (_ =? 0);
      [wp_step | apply wp_delay_kept; intros e4 He4; wp_simpl];
      (eapply wp_conseq;
       [apply IH with (k := k); cbn [env] in *;
        [congruence | lia | exact Hclock | cbn; lia]|];
       intros c st' (-> & retried & rep & Hlen & Hc & Hf & Hcm & Hs & Ha & Hd
                        & He);
       split; [reflexivity|]; exists (Throw x :: retried), rep;
       revert Hc Hf Hcm Ha Hd He; cbn; rewrite !length_app; cbn;
       intros Hc Hf Hcm Ha Hd He;
       repeat split; try assumption; try lia;
       rewrite Hc, <- app_assoc; reflexivity).
  - rewrite Hv. wp_simpl.
    change (match RetryOptions.retryOnResult options with
            | Some retryOnResult => retryOnResult v
            | None => false
            end) with (flagged options v).
    rewrite Hflag.
    destruct (Z.gtb_spec (Z.of_nat (S r)) 0) as [_|]; [|lia].
    unfold RetryService.handleRetryableResult.
    wp_step. apply wp_debug_kept. intros e3 He3. wp_simpl. wp_step.
    destruct (_ =? 0);
      [wp_step | apply wp_delay_kept; intros e4 He4; wp_simpl];
      (eapply wp_conseq;
       [apply IH with (k := k); cbn [env] in *;
        [congruence | lia | exact Hclock | cbn; lia]|];
       intros c st' (-> & retried & rep & Hlen & Hc & Hf & Hcm & Hs & Ha & Hd
                        & He);
       split; [reflexivity|]; exists (Normal v :: retried), rep;
       revert Hc Hf Hcm Ha Hd He; cbn; rewrite !length_app; cbn;
       intros Hc Hf Hcm Ha Hd He;
       repeat split; try assumption; try lia;
       rewrite Hc, <- app_assoc; reflexivity).
Qed.

End Accepted.


